(** * Genie client: the STT and dialogue streaming clients

    A shallow embedding of [genie::STT] (stt.cpp) and [genie::wsClient]
    (wsclient.cpp).  Both clients live in one [App]; their callbacks run to
    completion on the single GLib main loop, so every callback is a state
    transformer over [App].  What a callback does to the outside world
    (libsoup sockets, the audio player, the processing tracker) is appended
    to the [effects] log of the [App] in program order.  A dereference of a
    NULL [gchar *] is a fault: the transformer yields [None].

    Diagnostic output ([g_print], [g_message], [g_debug], [g_warning],
    [PROF_PRINT]) and the [gettimeofday] stamps are not part of the model. *)

From Stdlib Require Import ZArith List String Ascii Bool Lia.
From Stdlib Require Import DecimalString DecimalZ.
Import ListNotations.

Local Open Scope Z_scope.

(** ** C strings

    A [gchar *] that is not NULL is modelled by its content, the characters
    before the terminating NUL.  Reading at the end of the content reads the
    terminator. *)

Module CString.

Definition NUL : ascii := Ascii.zero.

(** The double quote character, and a string in double quotes. *)
Definition dquote : string := String (ascii_of_nat 34) EmptyString.

Definition quoted (s : string) : string := (dquote ++ s ++ dquote)%string.

Definition byte (c : ascii) : Z := Z.of_N (N_of_ascii c).

Definition head (s : string) : ascii :=
  match s with
  | EmptyString => NUL
  | String c _ => c
  end.

Definition tail (s : string) : string :=
  match s with
  | EmptyString => EmptyString
  | String _ r => r
  end.

(** [strncmp(s1, s2, n)]: at most [n] characters, stopping at a NUL. *)
Fixpoint strncmp (s1 s2 : string) (n : nat) : Z :=
  match n with
  | O => 0
  | S n' =>
      let c1 := head s1 in
      let c2 := head s2 in
      if Ascii.eqb c1 c2
      then if Ascii.eqb c1 NUL then 0 else strncmp (tail s1) (tail s2) n'
      else byte c1 - byte c2
  end.

(** The object a C string occupies: its content and the terminator. *)
Definition buffer (s : string) : list ascii :=
  list_ascii_of_string s ++ [NUL].

(** [memcmp(b1, b2, n)] stops at the first differing byte; it faults when it
    has to read past the end of an object to decide. *)
Fixpoint memcmp (b1 b2 : list ascii) (n : nat) : option Z :=
  match n with
  | O => Some 0
  | S n' =>
      match b1, b2 with
      | c1 :: r1, c2 :: r2 =>
          if Ascii.eqb c1 c2 then memcmp r1 r2 n' else Some (byte c1 - byte c2)
      | _, _ => None
      end
  end.

(** Pointer arithmetic [text += n] inside the content. *)
Fixpoint advance (n : nat) (s : string) : string :=
  match n with
  | O => s
  | S n' => advance n' (tail s)
  end.

(** GLib's [g_ascii_isspace]: space, tab, line feed, form feed, carriage
    return. *)
Definition g_ascii_isspace (c : ascii) : bool :=
  let n := byte c in
  (n =? 32) || (n =? 9) || (n =? 10) || (n =? 12) || (n =? 13).

(** GLib's [g_strchug]: removes leading whitespace. *)
Fixpoint g_strchug (s : string) : string :=
  match s with
  | EmptyString => EmptyString
  | String c r => if g_ascii_isspace c then g_strchug r else s
  end.

(** The conversion of a [gint64] to [int]. *)
Definition to_int (z : Z) : Z := (z + 2 ^ 31) mod 2 ^ 32 - 2 ^ 31.

(** A [gint64] after arithmetic: the value in 64 bits, two's complement. *)
Definition to_int64 (z : Z) : Z := (z + 2 ^ 63) mod 2 ^ 64 - 2 ^ 63.

(** [strcmp(s1, s2)]: up to the first difference or the terminator. *)
Fixpoint strcmp (s1 s2 : string) : Z :=
  match s1, s2 with
  | EmptyString, EmptyString => 0
  | EmptyString, String d _ => byte NUL - byte d
  | String c _, EmptyString => byte c - byte NUL
  | String c r1, String d r2 =>
      if Ascii.eqb c d
      then if Ascii.eqb c NUL then 0 else strcmp r1 r2
      else byte c - byte d
  end.

End CString.

(** ** JSON documents as json-glib's reader sees them *)

Module Json.

(** The values the two protocols carry: integers ([gint64]) and strings. *)
Inductive JsonValue : Type :=
| JInt (z : Z)
| JString (s : string).

(** An object: its members in order, under distinct names. *)
Definition JsonObject : Type := list (string * JsonValue).

(** A reader on the root the parser produced.  There is no object to read
    members from when the data did not parse or its root is not an object;
    every [json_reader_read_member] then fails. *)
Definition JsonReader : Type := option JsonObject.

Fixpoint get_member (name : string) (o : JsonObject) : option JsonValue :=
  match o with
  | [] => None
  | (k, v) :: rest => if String.eqb k name then Some v else get_member name rest
  end.

(** [json_reader_read_member] from the root: the member the cursor is on
    afterwards, if the root is an object that has it.  The client follows
    every read by [json_reader_end_member], which takes the cursor back to
    the root and clears the error of a failed read. *)
Definition json_reader_read_member (r : JsonReader) (name : string)
  : option JsonValue :=
  match r with
  | None => None
  | Some o => get_member name o
  end.

(** [json_reader_get_int_value]: 0 unless the cursor is on an integer. *)
Definition json_reader_get_int_value (m : option JsonValue) : Z :=
  match m with
  | Some (JInt z) => z
  | _ => 0
  end.

(** [json_reader_get_string_value]: NULL unless the cursor is on a string. *)
Definition json_reader_get_string_value (m : option JsonValue)
  : option string :=
  match m with
  | Some (JString s) => Some s
  | _ => None
  end.

(** The part of json-glib that turns documents into text and back. *)
Class JsonGlib : Type := {
  json_generator_to_data : JsonObject -> string;
  json_parser_load_from_data : string -> JsonReader
}.

End Json.
Export Json.

(** ** A small json-glib

    An implementation of [JsonGlib] that computes: objects whose members are
    integers and strings, written the way json-glib's generator writes them
    by default (no white space, [json_strescape] inside strings) and read
    back from that form. *)

Module MiniJson.

Local Open Scope string_scope.

Definition backslash : ascii := ascii_of_nat 92.

Definition hexchar (n : N) : ascii :=
  match n with
  | 0%N => "0" | 1%N => "1" | 2%N => "2" | 3%N => "3" | 4%N => "4"
  | 5%N => "5" | 6%N => "6" | 7%N => "7" | 8%N => "8" | 9%N => "9"
  | 10%N => "a" | 11%N => "b" | 12%N => "c" | 13%N => "d" | 14%N => "e"
  | _ => "f"
  end%char.

Definition hexval (c : ascii) : option N :=
  let n := N_of_ascii c in
  if (48 <=? n)%N && (n <=? 57)%N then Some (n - 48)%N
  else if (97 <=? n)%N && (n <=? 102)%N then Some (n - 87)%N
  else if (65 <=? n)%N && (n <=? 70)%N then Some (n - 55)%N
  else None.

(** One character as [json_strescape] writes it. *)
Definition escape_char (c : ascii) : string :=
  let n := N_of_ascii c in
  if (n =? 34)%N || (n =? 92)%N then String backslash (String c "")
  else if ((0 <? n)%N && (n <? 31)%N) || (n =? 127)%N then
    if (n =? 8)%N then String backslash "b"
    else if (n =? 12)%N then String backslash "f"
    else if (n =? 10)%N then String backslash "n"
    else if (n =? 13)%N then String backslash "r"
    else if (n =? 9)%N then String backslash "t"
    else String backslash
           (String "u" (String "0" (String "0"
             (String (hexchar (n / 16)) (String (hexchar (n mod 16)) "")))))
  else String c "".

Fixpoint escape (s : string) : string :=
  match s with
  | EmptyString => EmptyString
  | String c r => escape_char c ++ escape r
  end.

(** The character a one-letter escape stands for. *)
Definition simple_escape (e : ascii) : option ascii :=
  let n := N_of_ascii e in
  if (n =? 34)%N || (n =? 92)%N || (n =? 47)%N then Some e
  else if (n =? 98)%N then Some (ascii_of_nat 8)
  else if (n =? 102)%N then Some (ascii_of_nat 12)
  else if (n =? 110)%N then Some (ascii_of_nat 10)
  else if (n =? 114)%N then Some (ascii_of_nat 13)
  else if (n =? 116)%N then Some (ascii_of_nat 9)
  else None.

Definition push (c : ascii) (r : option (string * string))
  : option (string * string) :=
  match r with
  | Some (t, rest) => Some (String c t, rest)
  | None => None
  end.

(** Reads a string after its opening quote: the content and what follows
    the closing quote. *)
Fixpoint read_string (s : string) : option (string * string) :=
  match s with
  | EmptyString => None
  | String c r =>
      if (N_of_ascii c =? 34)%N then Some (EmptyString, r)
      else if (N_of_ascii c =? 92)%N then
        match r with
        | EmptyString => None
        | String e r1 =>
            match simple_escape e with
            | Some ch => push ch (read_string r1)
            | None =>
                if (N_of_ascii e =? 117)%N then
                  match r1 with
                  | String h1 (String h2 (String h3 (String h4 r2))) =>
                      match hexval h1, hexval h2, hexval h3, hexval h4 with
                      | Some 0%N, Some 0%N, Some a, Some b =>
                          push (ascii_of_N (16 * a + b)) (read_string r2)
                      | _, _, _, _ => None
                      end
                  | _ => None
                  end
                else None
            end
        end
      else push c (read_string r)
  end.

Definition is_number_char (c : ascii) : bool :=
  let n := N_of_ascii c in
  (n =? 45)%N || ((48 <=? n)%N && (n <=? 57)%N).

(** Whether a text goes on with a character of a number. *)
Definition starts_number (s : string) : bool :=
  match s with
  | EmptyString => false
  | String c _ => is_number_char c
  end.

(** The longest prefix of number characters, and the rest. *)
Fixpoint span_number (s : string) : string * string :=
  match s with
  | EmptyString => (EmptyString, EmptyString)
  | String c r =>
      if is_number_char c
      then let '(ds, rest) := span_number r in (String c ds, rest)
      else (EmptyString, s)
  end.

Definition read_value (s : string) : option (JsonValue * string) :=
  match s with
  | EmptyString => None
  | String c r =>
      if (N_of_ascii c =? 34)%N then
        match read_string r with
        | Some (t, rest) => Some (JString t, rest)
        | None => None
        end
      else
        let '(ds, rest) := span_number s in
        match ds with
        | EmptyString => None
        | _ =>
            match NilEmpty.int_of_string ds with
            | Some i => Some (JInt (Z.of_int i), rest)
            | None => None
            end
        end
  end.

Definition read_member (s : string)
  : option ((string * JsonValue) * string) :=
  match s with
  | EmptyString => None
  | String c r =>
      if (N_of_ascii c =? 34)%N then
        match read_string r with
        | Some (k, String colon r1) =>
            if (N_of_ascii colon =? 58)%N then
              match read_value r1 with
              | Some (v, rest) => Some ((k, v), rest)
              | None => None
              end
            else None
        | _ => None
        end
      else None
  end.

(** The members up to the closing brace; one unit of fuel per member. *)
Fixpoint read_members (fuel : nat) (s : string)
  : option (JsonObject * string) :=
  match fuel with
  | O => None
  | S fuel' =>
      match read_member s with
      | Some (m, String c r) =>
          if (N_of_ascii c =? 44)%N then
            match read_members fuel' r with
            | Some (o, rest) => Some (m :: o, rest)
            | None => None
            end
          else if (N_of_ascii c =? 125)%N then Some ([m], r)
          else None
      | _ => None
      end
  end.

Definition parse (s : string) : JsonReader :=
  match s with
  | String c r =>
      if (N_of_ascii c =? 123)%N then
        match r with
        | EmptyString => None
        | String d r' =>
            if (N_of_ascii d =? 125)%N then
              match r' with
              | EmptyString => Some []
              | _ => None
              end
            else
              match read_members (String.length r) r with
              | Some (o, EmptyString) => Some o
              | _ => None
              end
        end
      else None
  | EmptyString => None
  end.

Definition write_value (v : JsonValue) : string :=
  match v with
  | JString s => CString.quoted (escape s)
  | JInt z => NilEmpty.string_of_int (Z.to_int z)
  end.

Definition write_member (m : string * JsonValue) : string :=
  CString.quoted (escape (fst m)) ++ ":" ++ write_value (snd m).

Fixpoint write_members (o : JsonObject) : string :=
  match o with
  | [] => ""
  | [m] => write_member m
  | m :: rest => write_member m ++ "," ++ write_members rest
  end.

Definition generate (o : JsonObject) : string :=
  "{" ++ write_members o ++ "}".

Definition json : JsonGlib := {|
  json_generator_to_data := generate;
  json_parser_load_from_data := parse
|}.

End MiniJson.

(** ** The world outside the two clients *)

Inductive SoupWebsocketState : Type :=
| SOUP_WEBSOCKET_STATE_OPEN
| SOUP_WEBSOCKET_STATE_CLOSING
| SOUP_WEBSOCKET_STATE_CLOSED.

(** A [SoupWebsocketConnection *] that is not NULL. *)
Definition SoupWebsocketConnection : Type := nat.

Inductive SoupWebsocketDataType : Type :=
| SOUP_WEBSOCKET_DATA_TEXT
| SOUP_WEBSOCKET_DATA_BINARY.

Inductive Sound : Type :=
| SOUND_NO_MATCH
| SOUND_NEWS_INTRO.

Inductive ProcessingEvent : Type :=
| PROCESSING_END_STT
| PROCESSING_START_GENIE
| PROCESSING_END_GENIE.

Inductive Client : Type :=
| ClientSTT
| ClientGenie.

(** Calls that leave the two clients, with their arguments. *)
Inductive Effect : Type :=
| soup_websocket_connection_send_text
    (conn : option SoupWebsocketConnection) (text : string)
| soup_websocket_connection_send_binary
    (conn : option SoupWebsocketConnection)
    (data : option (list Z)) (nbytes : Z)
| soup_websocket_connection_close (conn : SoupWebsocketConnection)
| soup_session_websocket_connect_async
    (client : Client) (wss_alias : bool) (uri : string)
    (authorization : option string)
| soup_websocket_connection_set_max_incoming_payload_size
    (conn : SoupWebsocketConnection) (size : Z)
| AudioPlayer_clean_queue
| AudioPlayer_playSound (id : Sound) (exclusive : option bool)
| AudioPlayer_resume
| AudioPlayer_say (text : option string)
| AudioPlayer_playLocation (url : option string)
| track_processing_event (e : ProcessingEvent).

(** ** State *)

(** Modelled from the spec: the declaration of [AudioFrame] (audio input
    header): a block of signed 16-bit samples, NULL for the end-of-utterance
    marker, and a sample count. *)
Record AudioFrame : Type := mkAudioFrame {
  samples : option (list Z);
  length : Z
}.

Record Config : Type := mkConfig {
  nlURL : string;
  genieURL : string;
  genieAccessToken : option string;
  conversationId : option string
}.

(** The fields of the STT client; [stt_queue] is the [GQueue] of frames,
    head first. *)
Record STT_t : Type := mkSTT {
  stt_queue : list AudioFrame;
  stt_connected : bool;
  stt_acceptStream : bool;
  stt_wconn : option SoupWebsocketConnection;
  stt_firstFrame : bool;
  stt_url : string
}.

(** The fields of the dialogue client; [seq] and [lastSaidTextID] hold
    message ids, which are [gint64]. *)
Record wsClient_t : Type := mkWsClient {
  ws_wconn : option SoupWebsocketConnection;
  ws_acceptStream : bool;
  ws_conversationId : option string;
  ws_accessToken : option string;
  ws_url : string;
  ws_seq : Z;
  ws_lastSaidTextID : Z;
  ws_tInit : bool
}.

Record App : Type := mkApp {
  m_config : Config;
  m_stt : STT_t;
  m_wsClient : wsClient_t;
  (** what [soup_websocket_connection_get_state] answers; libsoup and the
      peer change it, the clients only read it *)
  soup_state : SoupWebsocketConnection -> SoupWebsocketState;
  (** the calls made so far, oldest first *)
  effects : list Effect
}.

Definition with_stt (f : STT_t -> STT_t) (a : App) : App :=
  mkApp (m_config a) (f (m_stt a)) (m_wsClient a) (soup_state a) (effects a).

Definition with_wsClient (f : wsClient_t -> wsClient_t) (a : App) : App :=
  mkApp (m_config a) (m_stt a) (f (m_wsClient a)) (soup_state a) (effects a).

Definition with_effects (f : list Effect -> list Effect) (a : App) : App :=
  mkApp (m_config a) (m_stt a) (m_wsClient a) (soup_state a) (f (effects a)).

(** ** Callbacks as state transformers that may fault *)

Definition M (A : Type) : Type := App -> option (A * App).

Definition ret {A : Type} (x : A) : M A := fun a => Some (x, a).

Definition bind {A B : Type} (c : M A) (k : A -> M B) : M B :=
  fun a =>
    match c a with
    | None => None
    | Some (x, a') => k x a'
    end.

Definition fault {A : Type} : M A := fun _ => None.

Definition gets {A : Type} (f : App -> A) : M A := fun a => Some (f a, a).

Definition modify (f : App -> App) : M unit := fun a => Some (tt, f a).

Definition emit (e : Effect) : M unit :=
  modify (with_effects (fun l => l ++ [e])).

(** Using a pointer that may be NULL, or the outcome of a read that may
    leave its object. *)
Definition deref {A : Type} (p : option A) : M A :=
  match p with
  | None => fault
  | Some x => ret x
  end.

Declare Scope genie_scope.
Delimit Scope genie_scope with genie.
Notation "'let*' x ':=' c1 'in' c2" := (bind c1 (fun x => c2))
  (at level 10, x name, c1 at level 100, c2 at level 200) : genie_scope.
Notation "c1 ;; c2" := (bind c1 (fun _ => c2))
  (at level 100, c2 at level 200, right associativity) : genie_scope.
Local Open Scope genie_scope.

(** The state and the log a transformer ends in. *)
Definition exec {A : Type} (c : M A) (a : App) : option App :=
  match c a with
  | None => None
  | Some (_, a') => Some a'
  end.

(** The outcome of [soup_session_websocket_connect_finish]. *)
Inductive ConnectResult : Type :=
| ConnectError
| Connected (conn : SoupWebsocketConnection).

(** ** genie::wsClient *)

Module wsClient.

Definition set_wconn (c : option SoupWebsocketConnection) : M unit :=
  modify (with_wsClient (fun w =>
    mkWsClient c (ws_acceptStream w) (ws_conversationId w) (ws_accessToken w)
      (ws_url w) (ws_seq w) (ws_lastSaidTextID w) (ws_tInit w))).

Definition set_acceptStream (b : bool) : M unit :=
  modify (with_wsClient (fun w =>
    mkWsClient (ws_wconn w) b (ws_conversationId w) (ws_accessToken w)
      (ws_url w) (ws_seq w) (ws_lastSaidTextID w) (ws_tInit w))).

Definition set_conversationId (c : option string) : M unit :=
  modify (with_wsClient (fun w =>
    mkWsClient (ws_wconn w) (ws_acceptStream w) c (ws_accessToken w)
      (ws_url w) (ws_seq w) (ws_lastSaidTextID w) (ws_tInit w))).

Definition set_seq (n : Z) : M unit :=
  modify (with_wsClient (fun w =>
    mkWsClient (ws_wconn w) (ws_acceptStream w) (ws_conversationId w)
      (ws_accessToken w) (ws_url w) n (ws_lastSaidTextID w) (ws_tInit w))).

Definition set_lastSaidTextID (n : Z) : M unit :=
  modify (with_wsClient (fun w =>
    mkWsClient (ws_wconn w) (ws_acceptStream w) (ws_conversationId w)
      (ws_accessToken w) (ws_url w) (ws_seq w) n (ws_tInit w))).

Definition set_tInit (b : bool) : M unit :=
  modify (with_wsClient (fun w =>
    mkWsClient (ws_wconn w) (ws_acceptStream w) (ws_conversationId w)
      (ws_accessToken w) (ws_url w) (ws_seq w) (ws_lastSaidTextID w) b)).

Definition checkIsConnected (a : App) : bool :=
  match ws_wconn (m_wsClient a) with
  | None => false
  | Some c =>
      match soup_state a c with
      | SOUP_WEBSOCKET_STATE_OPEN => true
      | _ => false
      end
  end.

(** The object [sendCommand] builds. *)
Definition command_message (data : string) : JsonObject :=
  [("type"%string, JString "command"); ("text"%string, JString data)].

(** The object [handlePing] builds. *)
Definition pong_message : JsonObject :=
  [("type"%string, JString "pong")].

Definition setConnection (conn : option SoupWebsocketConnection) : M unit :=
  match conn with
  | None => ret tt
  | Some c => set_wconn (Some c)
  end.

Definition connect : M unit :=
  let* url := gets (fun a => ws_url (m_wsClient a)) in
  let* cid := gets (fun a => conversationId (m_config a)) in
  let convId :=
    match cid with
    | Some id => ("?id=" ++ id)%string
    | None => EmptyString
    end in
  let uri := (url ++ convId)%string in
  let* token := gets (fun a => ws_accessToken (m_wsClient a)) in
  let auth :=
    match token with
    | Some t => Some ("Bearer " ++ t)%string
    | None => None
    end in
  emit (soup_session_websocket_connect_async ClientGenie
          (CString.strncmp url "wss" 3 =? 0) uri auth).

Definition init : M bool :=
  connect ;;
  ret true.

Definition on_close (conn : SoupWebsocketConnection) : M unit :=
  connect.

Definition on_connection (res : ConnectResult) : M unit :=
  match res with
  | ConnectError => ret tt
  | Connected conn =>
      emit (soup_websocket_connection_set_max_incoming_payload_size conn
              512000) ;;
      setConnection (Some conn) ;;
      set_acceptStream false
  end.

Definition handleConversationID (reader : JsonReader) : M unit :=
  let text :=
    json_reader_get_string_value (json_reader_read_member reader "id") in
  set_conversationId text ;;
  set_acceptStream true.

Definition handleText (id : Z) (reader : JsonReader) : M unit :=
  let* lastSaidTextID := gets (fun a => ws_lastSaidTextID (m_wsClient a)) in
  if id <=? lastSaidTextID then ret tt
  else
    let text :=
      json_reader_get_string_value (json_reader_read_member reader "text") in
    let* tInit := gets (fun a => ws_tInit (m_wsClient a)) in
    (if tInit
     then emit (track_processing_event PROCESSING_END_GENIE) ;;
          set_tInit false
     else ret tt) ;;
    emit (AudioPlayer_say text) ;;
    set_lastSaidTextID id.

Definition handleSound (id : Z) (reader : JsonReader) : M unit :=
  let* name := deref (json_reader_get_string_value
                   (json_reader_read_member reader "name")) in
  if CString.strncmp name "news-intro" 10 =? 0
  then emit (AudioPlayer_playSound SOUND_NEWS_INTRO (Some true))
  else ret tt.

Definition handleAudio (id : Z) (reader : JsonReader) : M unit :=
  let url :=
    json_reader_get_string_value (json_reader_read_member reader "url") in
  emit (AudioPlayer_playLocation url).

(** [handleError] and [handleAskSpecial] read a member and write a
    diagnostic. *)
Definition handleError (id : Z) (reader : JsonReader) : M unit :=
  ret tt.

Definition handleAskSpecial (id : Z) (reader : JsonReader) : M unit :=
  ret tt.

Section WithJson.

Context {json : JsonGlib}.

Definition sendJSON (root : JsonObject) : M unit :=
  let str := json_generator_to_data root in
  let* wconn := gets (fun a => ws_wconn (m_wsClient a)) in
  emit (soup_websocket_connection_send_text wconn str).

Definition sendCommand (data : string) : M unit :=
  let* connected := gets checkIsConnected in
  if negb connected then ret tt
  else
    sendJSON (command_message data) ;;
    emit (track_processing_event PROCESSING_START_GENIE) ;;
    set_tInit true.

Definition handlePing (id : Z) (reader : JsonReader) : M unit :=
  let* connected := gets checkIsConnected in
  if negb connected then ret tt
  else sendJSON pong_message.

(** The object [sendThingtalk] builds for a program and a sequence number. *)
Definition thingtalk_message (data : string) (seq : Z) : JsonObject :=
  [("type"%string, JString "tt"); ("code"%string, JString data);
   ("id"%string, JInt seq)].

(** [seq++] happens while the object is built, before it is sent. *)
Definition sendThingtalk (data : string) : M unit :=
  let* connected := gets checkIsConnected in
  if negb connected then ret tt
  else
    let* seq := gets (fun a => ws_seq (m_wsClient a)) in
    let seq := CString.to_int64 (seq + 1) in
    set_seq seq ;;
    sendJSON (thingtalk_message data seq).

(** [strncmp(type, lit, n) == 0] *)
Definition type_is (type lit : string) (n : nat) : bool :=
  CString.strncmp type lit n =? 0.

Definition on_message (conn : SoupWebsocketConnection)
  (data_type : SoupWebsocketDataType) (message : string) : M unit :=
  match data_type with
  | SOUP_WEBSOCKET_DATA_BINARY => ret tt
  | SOUP_WEBSOCKET_DATA_TEXT =>
      let reader := json_parser_load_from_data message in
      let* type := deref (json_reader_get_string_value
                       (json_reader_read_member reader "type")) in
      if type_is type "id" 2 then handleConversationID reader
      else
        let id :=
          json_reader_get_int_value (json_reader_read_member reader "id") in
        set_seq id ;;
        let* acceptStream := gets (fun a => ws_acceptStream (m_wsClient a)) in
        if acceptStream then
          if type_is type "text" 4 then handleText id reader
          else if type_is type "sound" 5 then handleSound id reader
          else if type_is type "audio" 5 then handleAudio id reader
          else if type_is type "error" 5 then handleError id reader
          else if type_is type "askSpecial" 10 then handleAskSpecial id reader
          else if type_is type "ping" 4 then handlePing id reader
          else if type_is type "command" 7
                  || type_is type "new-program" 11
                  || type_is type "rdl" 3
                  || type_is type "link" 4
                  || type_is type "button" 6
                  || type_is type "video" 5
                  || type_is type "picture" 7
                  || type_is type "choice" 5
          then ret tt
          else ret tt
        else ret tt
  end.

End WithJson.

End wsClient.

(** ** genie::STT *)

Module STT.

Definition set_queue (q : list AudioFrame) : M unit :=
  modify (with_stt (fun s =>
    mkSTT q (stt_connected s) (stt_acceptStream s) (stt_wconn s)
      (stt_firstFrame s) (stt_url s))).

Definition set_acceptStream (b : bool) : M unit :=
  modify (with_stt (fun s =>
    mkSTT (stt_queue s) (stt_connected s) b (stt_wconn s)
      (stt_firstFrame s) (stt_url s))).

Definition set_wconn (c : option SoupWebsocketConnection) : M unit :=
  modify (with_stt (fun s =>
    mkSTT (stt_queue s) (stt_connected s) (stt_acceptStream s) c
      (stt_firstFrame s) (stt_url s))).

Definition set_firstFrame (b : bool) : M unit :=
  modify (with_stt (fun s =>
    mkSTT (stt_queue s) (stt_connected s) (stt_acceptStream s) (stt_wconn s)
      b (stt_url s))).

Definition set_connected (b : bool) : M unit :=
  modify (with_stt (fun s =>
    mkSTT (stt_queue s) b (stt_acceptStream s) (stt_wconn s)
      (stt_firstFrame s) (stt_url s))).

Definition init : M bool :=
  set_connected false ;;
  set_acceptStream false ;;
  set_wconn None ;;
  ret true.

(** [sizeof(int16_t)] *)
Definition sizeof_int16_t : Z := 2.

(** Sends the frame on [wconn]; the frame and its samples are freed
    afterwards, so a frame that was dispatched is held nowhere. *)
Definition dispatch_frame (frame : AudioFrame) : M unit :=
  let* wconn := gets (fun a => stt_wconn (m_stt a)) in
  emit (soup_websocket_connection_send_binary wconn (samples frame)
          (length frame * sizeof_int16_t)).

(** The loop of [flush_queue]; one unit of fuel per turn. *)
Fixpoint flush_loop (fuel : nat) : M unit :=
  match fuel with
  | O => ret tt
  | S fuel' =>
      let* q := gets (fun a => stt_queue (m_stt a)) in
      match q with
      | [] => ret tt
      | queued_frame :: rest =>
          set_queue rest ;;
          dispatch_frame queued_frame ;;
          flush_loop fuel'
      end
  end.

Definition flush_queue : M unit :=
  let* q := gets (fun a => stt_queue (m_stt a)) in
  flush_loop (List.length q).

Definition setConnection (conn : option SoupWebsocketConnection) : M unit :=
  match conn with
  | None => ret tt
  | Some c => set_wconn (Some c)
  end.

Definition is_connection_open (a : App) : bool :=
  stt_acceptStream (m_stt a) &&
  match stt_wconn (m_stt a) with
  | None => false
  | Some c =>
      match soup_state a c with
      | SOUP_WEBSOCKET_STATE_OPEN => true
      | _ => false
      end
  end.

Definition send_frame (frame : AudioFrame) : M unit :=
  let* open := gets is_connection_open in
  if open then
    flush_queue ;;
    dispatch_frame frame
  else
    let* q := gets (fun a => stt_queue (m_stt a)) in
    set_queue (q ++ [frame]).

Definition send_done : M unit :=
  let* open := gets is_connection_open in
  if open then
    flush_queue ;;
    let* wconn := gets (fun a => stt_wconn (m_stt a)) in
    emit (soup_websocket_connection_send_binary wconn None 0)
  else
    let empty := mkAudioFrame None 0 in
    let* q := gets (fun a => stt_queue (m_stt a)) in
    set_queue (q ++ [empty]).

Definition on_close (conn : SoupWebsocketConnection) : M unit :=
  set_acceptStream false.

(** The text of the handshake, [{ "ver": 1 }]. *)
Definition handshake : string :=
  ("{ " ++ CString.quoted "ver" ++ ": 1 }")%string.

Definition on_connection (res : ConnectResult) : M unit :=
  match res with
  | ConnectError => ret tt
  | Connected conn =>
      setConnection (Some conn) ;;
      emit (soup_websocket_connection_send_text (Some conn) handshake) ;;
      set_acceptStream true ;;
      flush_queue
  end.

Definition connect : M bool :=
  let* url := gets (fun a => stt_url (m_stt a)) in
  let* wss :=
    deref (CString.memcmp (CString.buffer url) (CString.buffer "wss") 3) in
  set_wconn None ;;
  emit (soup_session_websocket_connect_async ClientSTT (wss =? 0)
          (url ++ "/en-US/voice/stream")%string None) ;;
  set_firstFrame true ;;
  ret true.

Section WithJson.

Context {json : JsonGlib}.

Definition on_message (conn : SoupWebsocketConnection)
  (type : SoupWebsocketDataType) (message : string) : M unit :=
  emit (track_processing_event PROCESSING_END_STT) ;;
  match type with
  | SOUP_WEBSOCKET_DATA_TEXT =>
      let reader := json_parser_load_from_data message in
      let status :=
        CString.to_int
          (json_reader_get_int_value (json_reader_read_member reader "status"))
      in
      if status =? 0 then
        let* result := deref (json_reader_get_string_value
                           (json_reader_read_member reader "result")) in
        let* ok := deref (CString.memcmp (CString.buffer result)
                       (CString.buffer "ok") 2) in
        if ok =? 0 then
          emit AudioPlayer_clean_queue ;;
          let* text := deref (json_reader_get_string_value
                           (json_reader_read_member reader "text")) in
          let '(text, wakewordFound) :=
            if (CString.strncmp text "Computer," 9 =? 0)
               || (CString.strncmp text "computer," 9 =? 0)
               || (CString.strncmp text "Computer." 9 =? 0)
               || (CString.strncmp text "computer." 9 =? 0)
            then (CString.advance 9 text, true)
            else if (CString.strncmp text "Computer" 8 =? 0)
                    || (CString.strncmp text "computer" 8 =? 0)
            then (CString.advance 8 text, true)
            else (text, false) in
          if wakewordFound : bool then
            let dtext := CString.g_strchug text in
            wsClient.sendCommand dtext
          else
            emit (AudioPlayer_playSound SOUND_NO_MATCH None) ;;
            emit AudioPlayer_resume
        else ret tt
      else
        emit (AudioPlayer_playSound SOUND_NO_MATCH None) ;;
        emit AudioPlayer_resume
  | SOUP_WEBSOCKET_DATA_BINARY => ret tt
  end ;;
  emit (soup_websocket_connection_close conn).

End WithJson.

End STT.

(** ** Vocabulary of the properties *)

(** The call [dispatch_frame] makes for a frame. *)
Definition frame_send (wconn : option SoupWebsocketConnection)
  (f : AudioFrame) : Effect :=
  soup_websocket_connection_send_binary wconn (samples f)
    (length f * STT.sizeof_int16_t).

(** What the capture path calls. *)
Inductive SendCall : Type :=
| SendFrame (frame : AudioFrame)
| SendDone.

Definition call (c : SendCall) : M unit :=
  match c with
  | SendFrame frame => STT.send_frame frame
  | SendDone => STT.send_done
  end.

Fixpoint calls (cs : list SendCall) : M unit :=
  match cs with
  | [] => ret tt
  | c :: rest => call c ;; calls rest
  end.

(** The frame a call leaves in the queue while the connection is not open. *)
Definition queued_frame (c : SendCall) : AudioFrame :=
  match c with
  | SendFrame frame => frame
  | SendDone => mkAudioFrame None 0
  end.

Definition enqueue (fs : list AudioFrame) (a : App) : App :=
  with_stt (fun s =>
    mkSTT (stt_queue s ++ fs) (stt_connected s) (stt_acceptStream s)
      (stt_wconn s) (stt_firstFrame s) (stt_url s)) a.

Definition drained (a : App) : App :=
  with_effects
    (fun l => l ++ map (frame_send (stt_wconn (m_stt a))) (stt_queue (m_stt a)))
    (with_stt (fun s =>
       mkSTT [] (stt_connected s) (stt_acceptStream s) (stt_wconn s)
         (stt_firstFrame s) (stt_url s)) a).

(** What the reader finds in an inbound message. *)
Section Members.

Context {json : JsonGlib}.

Definition member_string (message name : string) : option string :=
  json_reader_get_string_value
    (json_reader_read_member (json_parser_load_from_data message) name).

Definition member_int (message name : string) : Z :=
  json_reader_get_int_value
    (json_reader_read_member (json_parser_load_from_data message) name).

End Members.

(** The wake phrases as the specification lists them: the literal prefix
    and the number of characters to strip, in priority order. *)
Definition wake_phrases : list (string * nat) :=
  [("Computer,"%string, 9%nat); ("computer,"%string, 9%nat);
   ("Computer."%string, 9%nat); ("computer."%string, 9%nat);
   ("Computer"%string, 8%nat); ("computer"%string, 8%nat)].

(** The first phrase of the list that prefixes the text decides: the text
    without the stripped characters and without leading white space.  No
    phrase: no wake word. *)
Fixpoint strip_wake_phrase (phrases : list (string * nat)) (text : string)
  : option string :=
  match phrases with
  | [] => None
  | (phrase, n) :: rest =>
      if String.prefix phrase text
      then Some (CString.g_strchug (CString.advance n text))
      else strip_wake_phrase rest text
  end.

Section Outcomes.

Context {json : JsonGlib}.

(** The failure cue of the STT client. *)
Definition failure_cue : M unit :=
  emit (AudioPlayer_playSound SOUND_NO_MATCH None) ;;
  emit AudioPlayer_resume.

(** An STT reply taken as valid: the player's queue is cleared and the text
    goes through the wake phrases. *)
Definition recognized (conn : SoupWebsocketConnection) (text : option string)
  : M unit :=
  emit (track_processing_event PROCESSING_END_STT) ;;
  emit AudioPlayer_clean_queue ;;
  let* t := deref text in
  match strip_wake_phrase wake_phrases t with
  | Some command => wsClient.sendCommand command
  | None => failure_cue
  end ;;
  emit (soup_websocket_connection_close conn).

(** An STT reply taken as a failure. *)
Definition rejected (conn : SoupWebsocketConnection) : M unit :=
  emit (track_processing_event PROCESSING_END_STT) ;;
  failure_cue ;;
  emit (soup_websocket_connection_close conn).

End Outcomes.

(** Whether the ninth character of the text is one of the two delimiters. *)
Definition delimited (text : string) : bool :=
  match String.get 8 text with
  | Some c => Ascii.eqb "," c || Ascii.eqb "." c
  | None => false
  end.

(** The callbacks libsoup makes into the dialogue client. *)
Inductive Callback : Type :=
| OnMessage (conn : SoupWebsocketConnection)
    (data_type : SoupWebsocketDataType) (message : string)
| OnClose (conn : SoupWebsocketConnection)
| OnConnection (res : ConnectResult).

Definition dispatch {json : JsonGlib} (cb : Callback) : M unit :=
  match cb with
  | OnMessage conn data_type message =>
      wsClient.on_message conn data_type message
  | OnClose conn => wsClient.on_close conn
  | OnConnection res => wsClient.on_connection res
  end.

(** A connection attempt of the dialogue client. *)
Definition is_connect (e : Effect) : bool :=
  match e with
  | soup_session_websocket_connect_async ClientGenie _ _ _ => true
  | _ => false
  end.

(** The calls a callback added to the log; none when it faulted. *)
Definition added (a : App) (r : option App) : list Effect :=
  match r with
  | Some a1 => skipn (List.length (effects a)) (effects a1)
  | None => []
  end.

(** A transformer is quiet when it only adds calls to the log that are not
    connection attempts of the dialogue client. *)
Definition quiet {A : Type} (c : M A) : Prop :=
  forall a x a1,
    c a = Some (x, a1) ->
    exists new, effects a1 = effects a ++ new /\ filter is_connect new = [].

(** The pong the dialogue client sends. *)
Definition pong {json : JsonGlib} (a : App) : Effect :=
  soup_websocket_connection_send_text (ws_wconn (m_wsClient a))
    (json_generator_to_data wsClient.pong_message).

Fixpoint no_nul (s : string) : bool :=
  match s with
  | EmptyString => true
  | String c r => negb (Ascii.eqb c CString.NUL) && no_nul r
  end.

(** ** genie::WebServer

    The configuration pages (webserver.cpp).  A handler is a function of
    the request and of what the server holds; it yields the calls it makes,
    in order, and the configuration it leaves.  [log_request] only writes a
    diagnostic and is left out. *)

Module WebServer.

Local Open Scope string_scope.

(** Modelled from the spec: the declaration of [AllowedMethod] (web server
    header), whose three enumerators the source names. *)
Inductive AllowedMethod : Type :=
| NONE
| GET
| POST.

(** GLib's [GFileError]. *)
Inductive GFileError : Type :=
| G_FILE_ERROR_EXIST | G_FILE_ERROR_ISDIR | G_FILE_ERROR_ACCES
| G_FILE_ERROR_NAMETOOLONG | G_FILE_ERROR_NOENT | G_FILE_ERROR_NOTDIR
| G_FILE_ERROR_NXIO | G_FILE_ERROR_NODEV | G_FILE_ERROR_ROFS
| G_FILE_ERROR_TXTBSY | G_FILE_ERROR_FAULT | G_FILE_ERROR_LOOP
| G_FILE_ERROR_NOSPC | G_FILE_ERROR_NOMEM | G_FILE_ERROR_MFILE
| G_FILE_ERROR_NFILE | G_FILE_ERROR_BADF | G_FILE_ERROR_INVAL
| G_FILE_ERROR_PIPE | G_FILE_ERROR_AGAIN | G_FILE_ERROR_INTR
| G_FILE_ERROR_IO | G_FILE_ERROR_PERM | G_FILE_ERROR_NOSYS
| G_FILE_ERROR_FAILED.

(** The outcome of [g_file_get_contents]. *)
Inductive FileResult : Type :=
| FileContents (contents : string)
| FileError (code : GFileError).

(** The fields of [app->config] the server reads; a [char *] field may be
    NULL. *)
Record WConfig : Type := mkWConfig {
  genie_url : option string;
  genie_access_token : option string;
  conversation_id : option string;
  asset_dir : string
}.

(** What the server is built on and does not define: the values of the
    enumerators of [AllowedMethod], three functions of GLib, gettext and
    libsoup, and the setters of [Config]. *)
Class Env : Type := {
  method_flag : AllowedMethod -> Z;
  g_build_filename : string -> string -> string -> string;
  gettext : string -> string;
  soup_form_decode : string -> string -> option string;
  set_genie_url : string -> WConfig -> WConfig;
  set_genie_access_token : string -> WConfig -> WConfig;
  set_conversation_id : string -> WConfig -> WConfig
}.

(** A request: its method, the content type of its headers (NULL when there
    is none) and its body. *)
Record SoupMessage : Type := mkSoupMessage {
  method : string;
  content_type : option string;
  request_body : string
}.

(** What the server holds: the configuration, its CSRF token and the files
    it can read. *)
Record Web : Type := mkWeb {
  config : WConfig;
  csrf_token : string;
  files : string -> FileResult
}.

(** The calls of a handler. *)
Inductive Call : Type :=
| soup_message_set_status (status : Z)
| soup_message_set_response (content_type : string) (body : string)
| g_file_get_contents (filename : string)
| Config_set_genie_url (url : string)
| Config_set_genie_access_token (access_token : string)
| Config_set_conversation_id (conversation_id : string)
| Config_save.

(** The texts of the source are written here with an apostrophe for every
    double quote; [html] puts the double quotes back. *)
Fixpoint html (s : string) : string :=
  match s with
  | EmptyString => EmptyString
  | String c r =>
      String (if Ascii.eqb c "'" then ascii_of_nat 34 else c) (html r)
  end.

Definition html_template_1 : string :=
  "<!DOCTYPE html><html><head><title>".

Definition html_template_2 : string :=
  html ("</title>"
        ++ "<meta charset='utf-8' />"
        ++ "<meta name='viewport' "
        ++ "content='width=device-width, initial-scale=1' />"
        ++ "<link "
        ++ "href='https://cdn.jsdelivr.net/npm/bootstrap@5.1.3/dist/css/"
        ++ "bootstrap.min.css' rel='stylesheet' "
        ++ "integrity='sha384-"
        ++ "1BmE4kWBq78iYhFldvKuhfTAU6auU8tT94WrHftjDbrCEXSU1oBoqyl2QvZ6jIW3' "
        ++ "crossorigin='anonymous' />"
        ++ "<link href='/css/style.css' rel='stylesheet' />"
        ++ "</head>"
        ++ "<body>"
        ++ "<div class='container'>").

Definition html_template_3 : string :=
  html ("</div>"
        ++ "<script "
        ++ "src='https://cdn.jsdelivr.net/npm/bootstrap@5.1.3/dist/js/"
        ++ "bootstrap.bundle.min.js' "
        ++ "integrity='sha384-"
        ++ "ka7Sk0Gln4gmtz2MlQnikT1wXgYsOg+OMhuP+IlRH9sENBO0LRn5q+"
        ++ "8nbTov4+1p' crossorigin='anonymous'></script>"
        ++ "<script src='/js/shared.js'></script>"
        ++ "</body>"
        ++ "</html>").

Definition title_error : string := "Genie - Error".

Definition title_normal : string := "Genie Configuration".

Definition reply_403 : string :=
  "<h1>Forbidden</h1><p>The requested page is not accessible.</p>".

Definition reply_404 : string :=
  html ("<h1>Not Found</h1><p>The requested page does not exist.</p><p><a "
        ++ "href='/'>Home page</a></p>").

Definition reply_405 : string := "<h1>Method Not Allowed</h1>".

(** GLib's [g_str_has_prefix]. *)
Definition g_str_has_prefix (str prefix : string) : bool :=
  (CString.strncmp str prefix (String.length prefix) =? 0)%Z.

(** [strstr(haystack, needle)]: the text from the first occurrence on, NULL
    when there is none. *)
Fixpoint strstr (haystack needle : string) : option string :=
  if String.prefix needle haystack then Some haystack
  else
    match haystack with
    | EmptyString => None
    | String _ rest => strstr rest needle
    end.

(** GLib's [g_strcmp0]: [strcmp] that takes NULL, which sorts first. *)
Definition g_strcmp0 (s1 s2 : option string) : Z :=
  match s1, s2 with
  | None, None => 0
  | None, Some _ => -1
  | Some _, None => 1
  | Some x, Some y => CString.strcmp x y
  end.

(** What [printf] writes for [%s]; glibc writes [(null)] for NULL. *)
Definition printf_s (s : option string) : string :=
  match s with
  | Some x => x
  | None => "(null)"
  end.

(** [*s]: whether the first character is not the terminator. *)
Definition nonempty (s : string) : bool :=
  negb (Ascii.eqb (CString.head s) CString.NUL).

Definition send_html (status : Z) (page_title page_body : string)
  : list Call :=
  [soup_message_set_status status;
   soup_message_set_response "text/html"
     (html_template_1 ++ page_title ++ html_template_2 ++ page_body
      ++ html_template_3)].

Definition handle_404 : list Call := send_html 404 title_error reply_404.

Definition handle_405 : list Call := send_html 405 title_error reply_405.

Section WithEnv.

Context {env : Env}.

Definition check_method (msg : SoupMessage) (allowed_methods : Z)
  : AllowedMethod * list Call :=
  if (CString.strcmp (method msg) "GET" =? 0)%Z then
    if negb (Z.land allowed_methods (method_flag GET) =? 0)%Z
    then (GET, [])
    else (NONE, handle_405)
  else if (CString.strcmp (method msg) "POST" =? 0)%Z then
    if negb (Z.land allowed_methods (method_flag POST) =? 0)%Z
    then (POST, [])
    else (NONE, handle_405)
  else (NONE, handle_405).

Definition handle_asset (w : Web) (msg : SoupMessage) (path : string)
  : list Call :=
  let '(allowed, answer) := check_method msg (method_flag GET) in
  match allowed with
  | GET =>
      if g_str_has_prefix path "." || g_str_has_prefix path "/."
         || match strstr path ".." with Some _ => true | None => false end
      then handle_404
      else
        let filename :=
          g_build_filename (asset_dir (config w)) "webui" path in
        g_file_get_contents filename ::
        match files w filename with
        | FileError code =>
            match code with
            | G_FILE_ERROR_ACCES | G_FILE_ERROR_PERM =>
                send_html 403 title_error reply_403
            | _ => handle_404
            end
        | FileContents contents =>
            let content_type :=
              if g_str_has_prefix path "/css" then "text/css"
              else if g_str_has_prefix path "/js"
              then "application/javascript"
              else if (CString.strcmp path "/favicon.ico" =? 0)%Z
              then "image/png"
              else "application/octet-stream" in
            [soup_message_set_status 200;
             soup_message_set_response content_type contents]
        end
  | _ => answer
  end.

Definition handle_index_get (w : Web) : list Call :=
  let body :=
    html "<h1>" ++ gettext "Genie Configuration" ++
    html ("</h1>"
          ++ "<form method='POST' action='/'>"
          ++ "<input type='hidden' name='_csrf' value='") ++
    csrf_token w ++
    html ("' />"
          ++ "<div class='mb-3'>"
          ++ "<label for='config-url' class='form-label'>") ++
    gettext "URL" ++
    html ("</label>"
          ++ "<input type='text' id='config-url' name='url' value='") ++
    printf_s (genie_url (config w)) ++
    html ("' "
          ++ "class='form-control' />"
          ++ "</div>"
          ++ "<div class='mb-3'>"
          ++ "<label for='config-access-token' class='form-label'>") ++
    gettext "Access Token" ++
    html ("</label>"
          ++ "<input type='text' id='config-access-token' name='access_token' "
          ++ "value='") ++
    match genie_access_token (config w) with
    | Some token => token
    | None => ""
    end ++
    html ("' class='form-control' />"
          ++ "</div>"
          ++ "<div class='mb-3'>"
          ++ "<label for='config-conversation-id' class='form-label'>") ++
    gettext "Conversation ID" ++
    html ("</label>"
          ++ "<input type='text' id='config-conversation-id' "
          ++ "name='conversation_id' "
          ++ "value='") ++
    printf_s (conversation_id (config w)) ++
    html ("' class='form-control' />"
          ++ "</div>"
          ++ "<button type='submit' class='btn btn-primary'>Save</button>")
  in
  send_html 200 title_normal body.

(** One field of the form: the setter is called when the field is there,
    is not empty and differs from the value the configuration holds. *)
Definition update_field (field : option string) (current : option string)
  (call : string -> Call) (set : string -> WConfig -> WConfig)
  (state : WConfig * list Call * bool) : WConfig * list Call * bool :=
  let '(c, made, any_change) := state in
  match field with
  | Some value =>
      if nonempty value && negb (g_strcmp0 (Some value) current =? 0)%Z
      then (set value c, (made ++ [call value])%list, true)
      else state
  | None => state
  end.

Definition handle_index_post (w : Web) (msg : SoupMessage)
  : WConfig * list Call :=
  if negb (g_strcmp0 (content_type msg)
             (Some "application/x-www-form-urlencoded") =? 0)%Z
  then (config w, send_html 406 title_error "<h1>Not Acceptable</h1>")
  else
    let fields := soup_form_decode (request_body msg) in
    if negb (g_strcmp0 (fields "_csrf") (Some (csrf_token w)) =? 0)%Z
    then (config w, send_html 403 title_error "<h1>Invalid CSRF token</h1>")
    else
      let s0 := (config w, [], false) in
      let s1 :=
        update_field (fields "url") (genie_url (fst (fst s0)))
          Config_set_genie_url set_genie_url s0 in
      let s2 :=
        update_field (fields "access_token")
          (genie_access_token (fst (fst s1)))
          Config_set_genie_access_token set_genie_access_token s1 in
      let s3 :=
        update_field (fields "conversation_id")
          (conversation_id (fst (fst s2)))
          Config_set_conversation_id set_conversation_id s2 in
      let '(c, made, any_change) := s3 in
      let saved := (if any_change then made ++ [Config_save] else made)%list in
      (c, (saved ++ handle_index_get (mkWeb c (csrf_token w) (files w)))%list).

Definition handle_index (w : Web) (msg : SoupMessage)
  : WConfig * list Call :=
  let '(allowed, answer) :=
    check_method msg (Z.lor (method_flag GET) (method_flag POST)) in
  match allowed with
  | GET => (config w, handle_index_get w)
  | POST => handle_index_post w msg
  | NONE => (config w, answer)
  end.

(** The four handlers the constructor registers, by their paths. *)
Inductive Handler : Type :=
| FaviconHandler
| CssHandler
| JsHandler
| RootHandler.

Definition serve (h : Handler) (w : Web) (msg : SoupMessage) (path : string)
  : WConfig * list Call :=
  match h with
  | RootHandler =>
      if (CString.strcmp path "/" =? 0)%Z then handle_index w msg
      else (config w, handle_404)
  | _ => (config w, handle_asset w msg path)
  end.

End WithEnv.

(** The statuses the calls set, in order. *)
Fixpoint statuses (cs : list Call) : list Z :=
  match cs with
  | [] => []
  | soup_message_set_status status :: rest => status :: statuses rest
  | _ :: rest => statuses rest
  end.

(** The bodies the calls answer with, in order. *)
Fixpoint responses (cs : list Call) : list (string * string) :=
  match cs with
  | [] => []
  | soup_message_set_response content_type body :: rest =>
      (content_type, body) :: responses rest
  | _ :: rest => responses rest
  end.

(** The files the calls read, in order. *)
Fixpoint reads (cs : list Call) : list string :=
  match cs with
  | [] => []
  | g_file_get_contents filename :: rest => filename :: reads rest
  | _ :: rest => reads rest
  end.

Definition is_setter (c : Call) : bool :=
  match c with
  | Config_set_genie_url _
  | Config_set_genie_access_token _
  | Config_set_conversation_id _ => true
  | _ => false
  end.

Definition is_save (c : Call) : bool :=
  match c with
  | Config_save => true
  | _ => false
  end.

(** A call that reaches the configuration. *)
Definition touches_config (c : Call) : bool := is_setter c || is_save c.

(** A field of the form that asks for no change: it is missing, empty or
    equal to the value the configuration holds. *)
Definition asks_nothing (field current : option string) : bool :=
  match field with
  | None => true
  | Some value =>
      negb (nonempty value) || (g_strcmp0 (Some value) current =? 0)%Z
  end.

End WebServer.

(** ** Vocabulary of the further properties *)

(** Every run of the transformer that does not fault takes a state to one
    related to it. *)
Definition relates (R : App -> App -> Prop) {A : Type} (c : M A) : Prop :=
  forall a x a1, c a = Some (x, a1) -> R a a1.

(** The log has grown, by calls that all pass the test. *)
Definition adds (P : Effect -> bool) (a a1 : App) : Prop :=
  exists new, effects a1 = effects a ++ new /\ forallb P new = true.

(** What the connection request of the dialogue client is made from. *)
Definition same_request (a a1 : App) : Prop :=
  m_config a1 = m_config a /\
  ws_url (m_wsClient a1) = ws_url (m_wsClient a) /\
  ws_accessToken (m_wsClient a1) = ws_accessToken (m_wsClient a).

(** The sequence number, the connection the client holds and the state of
    every connection are what they were, and the log has only grown. *)
Definition same_link (a a1 : App) : Prop :=
  ws_seq (m_wsClient a1) = ws_seq (m_wsClient a) /\
  ws_wconn (m_wsClient a1) = ws_wconn (m_wsClient a) /\
  soup_state a1 = soup_state a /\
  adds (fun _ => true) a a1.

(** The id of the last text said has not gone down. *)
Definition last_said_grows (a a1 : App) : Prop :=
  ws_lastSaidTextID (m_wsClient a) <= ws_lastSaidTextID (m_wsClient a1).

(** Callbacks of the dialogue client, one after the other. *)
Fixpoint dispatch_all {json : JsonGlib} (cbs : list Callback) : M unit :=
  match cbs with
  | [] => ret tt
  | cb :: rest => dispatch cb ;; dispatch_all rest
  end.

(** The calls the callbacks of the dialogue client make: text on its
    socket, its connection request and the limit it sets on the connection,
    the three playing calls of the audio player and the end of the latency
    measurement. *)
Definition dialogue_call (e : Effect) : bool :=
  match e with
  | soup_websocket_connection_send_text _ _ => true
  | soup_session_websocket_connect_async ClientGenie _ _ _ => true
  | soup_websocket_connection_set_max_incoming_payload_size _ _ => true
  | AudioPlayer_say _ => true
  | AudioPlayer_playSound SOUND_NEWS_INTRO (Some true) => true
  | AudioPlayer_playLocation _ => true
  | track_processing_event PROCESSING_END_GENIE => true
  | _ => false
  end.

(** Anything but the closing of a socket. *)
Definition not_close (e : Effect) : bool :=
  match e with
  | soup_websocket_connection_close _ => false
  | _ => true
  end.

(** ** A device to run the model on *)

Module Example.

Definition config : Config :=
  mkConfig "https://nlp.example" "wss://genie.example/api/conversation"
    (Some "token"%string) None.

(** Connection 1 is the dialogue socket, connection 2 the STT socket; both
    are open.  Connection 3 is being closed, every other one is closed. *)
Definition sockets (c : SoupWebsocketConnection) : SoupWebsocketState :=
  match c with
  | 1%nat | 2%nat => SOUP_WEBSOCKET_STATE_OPEN
  | 3%nat => SOUP_WEBSOCKET_STATE_CLOSING
  | _ => SOUP_WEBSOCKET_STATE_CLOSED
  end.

Definition stt_idle : STT_t :=
  mkSTT [] false false None true "wss://nlp.example".

(** The dialogue client after the handshake, with text 5 already said. *)
Definition genie_ready : wsClient_t :=
  mkWsClient (Some 1%nat) true (Some "conv"%string) (Some "token"%string)
    "wss://genie.example/api/conversation" 5 5 false.

(** Both clients connected: the STT client waits for its reply. *)
Definition app : App :=
  mkApp config
    (mkSTT [] false true (Some 2%nat) false "wss://nlp.example")
    genie_ready sockets [].

(** The STT client not yet connected. *)
Definition app_connecting : App :=
  mkApp config stt_idle genie_ready sockets [].

(** The STT client open with two frames still queued. *)
Definition app_backlog : App :=
  mkApp config
    (mkSTT [mkAudioFrame (Some [7; 8]) 2; mkAudioFrame None 0]
       false true (Some 2%nat) false "wss://nlp.example")
    genie_ready sockets [].

(** The dialogue client right after its transport opened: the service has
    not sent the conversation id yet. *)
Definition app_handshake : App :=
  mkApp config stt_idle
    (mkWsClient (Some 1%nat) false None (Some "token"%string)
       "wss://genie.example/api/conversation" 0 (-1) false)
    sockets [].

(** The dialogue client on connection 3, which is no longer open. *)
Definition app_closing : App :=
  mkApp config stt_idle
    (mkWsClient (Some 3%nat) true (Some "conv"%string) (Some "token"%string)
       "wss://genie.example/api/conversation" 5 5 false)
    sockets [].

(** The text of an STT reply. *)
Definition stt_reply (status : Z) (result text : string) : string :=
  MiniJson.generate
    [("status"%string, JInt status); ("result"%string, JString result);
     ("text"%string, JString text)].

(** The text of the command message for a command. *)
Definition command_text (data : string) : string :=
  MiniJson.generate (wsClient.command_message data).

(** What the calls are after the STT client got a reply on its socket. *)
Definition stt_calls (message : string) (a : App) : option (list Effect) :=
  option_map effects
    (exec (STT.on_message (json := MiniJson.json) 2%nat
             SOUP_WEBSOCKET_DATA_TEXT message) a).

(** What the calls are after the dialogue client got a message. *)
Definition genie_calls (conn : SoupWebsocketConnection) (message : string)
  (a : App) : option (list Effect) :=
  option_map effects
    (exec (wsClient.on_message (json := MiniJson.json) conn
             SOUP_WEBSOCKET_DATA_TEXT message) a).

(** The text of a dialogue event. *)
Definition event (type : string) (id : JsonValue) (more : JsonObject)
  : string :=
  MiniJson.generate
    (("type"%string, JString type) :: ("id"%string, id) :: more).

Definition reply_lights : string :=
  stt_reply 0 "ok" "computer, turn on the lights".

Definition reply_comma : string := stt_reply 0 "ok" "computer, hi".

Definition reply_computerize : string :=
  stt_reply 0 "ok" "computerize the data".

Definition reply_okay : string := stt_reply 0 "okay" "computer, hi".

Definition reply_error : string := stt_reply 0 "error" "computer, hi".

Definition reply_upper_case : string := stt_reply 0 "ok" "COMPUTER, hi".

(** A reply that carries a status and nothing else. *)
Definition reply_failed : string :=
  MiniJson.generate [("status"%string, JInt 1)].

Definition event_text_3 : string :=
  event "text" (JInt 3) [("text"%string, JString "old news")].

Definition event_text_7 : string :=
  event "text" (JInt 7) [("text"%string, JString "hello")].

Definition event_sound_3 : string :=
  event "sound" (JInt 3) [("name"%string, JString "news-intro")].

Definition event_id : string := event "id" (JString "conv-42") [].

Definition event_idle : string := event "idle" (JString "abc") [].

Definition event_ping : string := event "ping" (JInt 6) [].

Definition frame1 : AudioFrame := mkAudioFrame (Some [1; -2; 3]) 3.
Definition frame2 : AudioFrame := mkAudioFrame (Some [4; 5]) 2.
Definition frame3 : AudioFrame := mkAudioFrame (Some [-6]) 1.

End Example.

(** ** A session of the dialogue client *)

Module Session.

Import Example.

Local Open Scope string_scope.


(** A text is said, the transport closes, the next attempt fails, the one
    after it opens connection 1 again, the service sends the conversation
    id, an old text, a sound and a ping. *)
Definition callbacks : list Callback :=
  [OnMessage 1%nat SOUP_WEBSOCKET_DATA_TEXT event_text_7;
   OnClose 1%nat;
   OnConnection ConnectError;
   OnConnection (Connected 1%nat);
   OnMessage 1%nat SOUP_WEBSOCKET_DATA_TEXT event_id;
   OnMessage 1%nat SOUP_WEBSOCKET_DATA_TEXT event_text_3;
   OnMessage 1%nat SOUP_WEBSOCKET_DATA_TEXT event_sound_3;
   OnMessage 1%nat SOUP_WEBSOCKET_DATA_BINARY event_ping;
   OnMessage 1%nat SOUP_WEBSOCKET_DATA_TEXT event_ping].

(** A ThingTalk program. *)
Definition program : string := "@org.thingpedia.light.on();".

End Session.

(** ** A web server to run the model on *)

Module WebExample.

Import WebServer.

Local Open Scope string_scope.

(** The text up to the first occurrence of a character, and the text after
    it; NULL when the character does not occur. *)
Fixpoint split_at (c : ascii) (s : string) : option (string * string) :=
  match s with
  | EmptyString => None
  | String d r =>
      if Ascii.eqb c d then Some (EmptyString, r)
      else
        match split_at c r with
        | Some (before, after) => Some (String d before, after)
        | None => None
        end
  end.

(** The value of a key in one [key=value] item. *)
Definition pair_value (key item : string) : option string :=
  match split_at "=" item with
  | Some (k, v) => if String.eqb k key then Some v else None
  | None => None
  end.

(** A form decoder for bodies that need no unescaping: [key=value] pairs
    separated by [&]; one unit of fuel per pair. *)
Fixpoint decode (fuel : nat) (body key : string) : option string :=
  match fuel with
  | O => None
  | S fuel' =>
      match split_at "&" body with
      | Some (item, rest) =>
          match pair_value key item with
          | Some v => Some v
          | None => decode fuel' rest key
          end
      | None => pair_value key body
      end
  end.

Definition env : Env := {|
  method_flag := fun m =>
    match m with
    | NONE => 0
    | GET => 1
    | POST => 2
    end;
  g_build_filename := fun a b c => a ++ "/" ++ b ++ c;
  gettext := fun s => s;
  soup_form_decode := fun body key => decode (S (String.length body)) body key;
  set_genie_url := fun url c =>
    mkWConfig (Some url) (genie_access_token c) (conversation_id c)
      (asset_dir c);
  set_genie_access_token := fun token c =>
    mkWConfig (genie_url c) (Some token) (conversation_id c) (asset_dir c);
  set_conversation_id := fun id c =>
    mkWConfig (genie_url c) (genie_access_token c) (Some id) (asset_dir c)
|}.

Definition disk (filename : string) : FileResult :=
  if String.eqb filename "/opt/genie/assets/webui/css/style.css"
  then FileContents "body { margin: 0 }"
  else if String.eqb filename "/opt/genie/assets/webui/js/secret.js"
  then FileError G_FILE_ERROR_ACCES
  else FileError G_FILE_ERROR_NOENT.

Definition web : Web :=
  mkWeb
    (mkWConfig (Some "wss://genie.example/api/conversation") None
       (Some "conv") "/opt/genie/assets")
    "c2VjcmV0" disk.

Definition get : SoupMessage := mkSoupMessage "GET" None "".

Definition form : option string :=
  Some "application/x-www-form-urlencoded".

(** A form that changes the access token and nothing else. *)
Definition post_token : SoupMessage :=
  mkSoupMessage "POST" form
    "_csrf=c2VjcmV0&url=&access_token=abc&conversation_id=conv".

(** The form as the page shows it, sent back as it is. *)
Definition post_same : SoupMessage :=
  mkSoupMessage "POST" form
    "_csrf=c2VjcmV0&url=&access_token=&conversation_id=conv".

(** A form with a token of its own. *)
Definition post_forged : SoupMessage :=
  mkSoupMessage "POST" form "_csrf=guess&access_token=abc".

End WebExample.

(** * Properties *)

Ltac run :=
  repeat progress
    (cbv beta iota delta
       [exec bind gets modify emit ret fault deref
        with_stt with_wsClient with_effects
        STT.set_queue STT.set_acceptStream STT.set_wconn STT.set_firstFrame
        STT.set_connected wsClient.set_wconn wsClient.set_acceptStream
        wsClient.set_conversationId wsClient.set_seq
        wsClient.set_lastSaidTextID wsClient.set_tInit];
     simpl).

(** ** The frame queue of the STT client *)

Section FrameQueue.

Lemma enqueue_nil (a : App) : enqueue [] a = a.
Proof.
  destruct a as [cfg [q c acc w ff u] ws st eff]; unfold enqueue; run.
  now rewrite app_nil_r.
Qed.

Lemma enqueue_app (fs gs : list AudioFrame) (a : App) :
  enqueue gs (enqueue fs a) = enqueue (fs ++ gs) a.
Proof.
  destruct a as [cfg [q c acc w ff u] ws st eff]; unfold enqueue; run.
  now rewrite app_assoc.
Qed.

Lemma is_connection_open_enqueue (fs : list AudioFrame) (a : App) :
  STT.is_connection_open (enqueue fs a) = STT.is_connection_open a.
Proof. reflexivity. Qed.

Lemma call_not_open (c : SendCall) (a : App) :
  STT.is_connection_open a = false ->
  call c a = Some (tt, enqueue [queued_frame c] a).
Proof.
  intros Hclosed.
  destruct c as [frame|]; simpl;
    unfold STT.send_frame, STT.send_done, bind, gets;
    rewrite Hclosed; reflexivity.
Qed.

Lemma calls_not_open (cs : list SendCall) (a : App) :
  STT.is_connection_open a = false ->
  calls cs a = Some (tt, enqueue (map queued_frame cs) a).
Proof.
  revert a; induction cs as [|c cs IH]; intros a Hclosed; simpl.
  - now rewrite enqueue_nil.
  - unfold bind. rewrite (call_not_open c a Hclosed).
    rewrite IH by (now rewrite is_connection_open_enqueue).
    now rewrite enqueue_app.
Qed.

Lemma flush_loop_drains (fuel : nat) (a : App) :
  (List.length (stt_queue (m_stt a)) <= fuel)%nat ->
  STT.flush_loop fuel a = Some (tt, drained a).
Proof.
  revert a; induction fuel as [|fuel IH]; intros a Hfuel.
  - destruct a as [cfg [[|f q] c acc w ff u] ws st eff]; simpl in Hfuel;
      [|lia].
    unfold drained; run. now rewrite app_nil_r.
  - destruct a as [cfg [[|f q] c acc w ff u] ws st eff].
    + unfold drained; simpl; run. now rewrite app_nil_r.
    + simpl in Hfuel. simpl; unfold STT.set_queue, STT.dispatch_frame; run.
      rewrite IH by (simpl; lia).
      unfold drained, frame_send; run. now rewrite <- app_assoc.
Qed.

Lemma flush_queue_drains (a : App) : STT.flush_queue a = Some (tt, drained a).
Proof.
  unfold STT.flush_queue, bind, gets. now apply flush_loop_drains.
Qed.

(** C1.  Frames handed to [send_frame] and [send_done] while the connection
    is not open are queued in call order and nothing is sent; when the
    connection opens, [on_connection] sends the handshake and then every
    queued frame, oldest first, each once, and leaves the queue empty.
    While the connection is open, [send_frame] and [send_done] first send
    whatever is queued, in order, and only then the new frame or the
    terminator. *)
Theorem stt_queue_fifo
  (a : App) (cs : list SendCall) (conn : SoupWebsocketConnection)
  (b : App) (frame : AudioFrame) :
  STT.is_connection_open a = false ->
  STT.is_connection_open b = true ->
  (exists a1 a2,
      exec (calls cs) a = Some a1 /\
      effects a1 = effects a /\
      stt_queue (m_stt a1) = stt_queue (m_stt a) ++ map queued_frame cs /\
      exec (STT.on_connection (Connected conn)) a1 = Some a2 /\
      effects a2 =
        effects a ++
        soup_websocket_connection_send_text (Some conn) STT.handshake ::
        map (frame_send (Some conn))
          (stt_queue (m_stt a) ++ map queued_frame cs) /\
      stt_queue (m_stt a2) = []) /\
  (exists b1,
      exec (STT.send_frame frame) b = Some b1 /\
      effects b1 =
        effects b ++
        map (frame_send (stt_wconn (m_stt b))) (stt_queue (m_stt b)) ++
        [frame_send (stt_wconn (m_stt b)) frame] /\
      stt_queue (m_stt b1) = []) /\
  (exists b2,
      exec STT.send_done b = Some b2 /\
      effects b2 =
        effects b ++
        map (frame_send (stt_wconn (m_stt b))) (stt_queue (m_stt b)) ++
        [frame_send (stt_wconn (m_stt b)) (mkAudioFrame None 0)] /\
      stt_queue (m_stt b2) = []).
Proof.
  intros Hclosed Hopen. split; [|split].
  - exists (enqueue (map queued_frame cs) a).
    eexists. unfold exec at 1. rewrite (calls_not_open cs a Hclosed).
    split; [reflexivity|]. split; [reflexivity|]. split; [reflexivity|].
    unfold exec, STT.on_connection, STT.setConnection, STT.set_wconn,
      STT.set_acceptStream, bind, emit, modify.
    rewrite flush_queue_drains.
    split; [reflexivity|].
    destruct a as [cfg [q c acc w ff u] ws st eff].
    unfold enqueue, drained; run.
    split; [|reflexivity].
    now rewrite <- app_assoc.
  - eexists. unfold exec, STT.send_frame, bind, gets. rewrite Hopen.
    rewrite flush_queue_drains.
    unfold STT.dispatch_frame, bind, gets, emit, modify.
    split; [reflexivity|].
    destruct b as [cfg [q c acc w ff u] ws st eff]. unfold drained; run.
    split; [|reflexivity].
    now rewrite <- app_assoc.
  - eexists. unfold exec, STT.send_done, bind, gets. rewrite Hopen.
    rewrite flush_queue_drains. unfold emit, modify.
    split; [reflexivity|].
    destruct b as [cfg [q c acc w ff u] ws st eff]. unfold drained; run.
    split; [|reflexivity].
    now rewrite <- app_assoc.
Qed.

End FrameQueue.

(** ** C strings *)

Section CStrings.

Lemma byte_diff (c1 c2 : ascii) :
  Ascii.eqb c1 c2 = false -> (CString.byte c1 - CString.byte c2 =? 0) = false.
Proof.
  intros Hne. apply Z.eqb_neq. intros Heq.
  apply Ascii.eqb_neq in Hne. apply Hne.
  unfold CString.byte in Heq.
  assert (HN : N_of_ascii c1 = N_of_ascii c2) by lia.
  rewrite <- (ascii_N_embedding c1), <- (ascii_N_embedding c2).
  now rewrite HN.
Qed.

(** Against a literal of [n] characters, [strncmp(text, lit, n) == 0] says
    that the literal prefixes the text. *)
Lemma strncmp_prefix (lit : string) :
  no_nul lit = true ->
  forall text,
    (CString.strncmp text lit (String.length lit) =? 0) =
    String.prefix lit text.
Proof.
  induction lit as [|c lit IH]; intros Hlit text.
  - now destruct text.
  - simpl in Hlit. apply andb_prop in Hlit. destruct Hlit as [Hc Hlit].
    apply negb_true_iff in Hc.
    destruct text as [|d text];
      cbn [CString.strncmp CString.head CString.tail String.prefix
           String.length].
    + rewrite Ascii.eqb_sym, Hc. now apply byte_diff; rewrite Ascii.eqb_sym.
    + destruct (ascii_dec c d) as [->|Hcd].
      * rewrite Ascii.eqb_refl, Hc. now apply IH.
      * assert (Hdc : Ascii.eqb d c = false)
          by (apply Ascii.eqb_neq; congruence).
        rewrite Hdc. now apply byte_diff.
Qed.

(** [memcmp] of a C string against a literal always decides inside the two
    objects, and likewise tests for a prefix. *)
Lemma memcmp_prefix (lit : string) :
  no_nul lit = true ->
  forall s,
    exists z,
      CString.memcmp (CString.buffer s) (CString.buffer lit)
        (String.length lit) = Some z /\
      (z =? 0) = String.prefix lit s.
Proof.
  induction lit as [|c lit IH]; intros Hlit s.
  - exists 0. now destruct s.
  - simpl in Hlit. apply andb_prop in Hlit. destruct Hlit as [Hc Hlit].
    apply negb_true_iff in Hc.
    destruct s as [|d s];
      cbn [CString.memcmp CString.buffer list_ascii_of_string app
           String.prefix String.length].
    + rewrite Ascii.eqb_sym, Hc.
      eexists; split; [reflexivity|].
      now apply byte_diff; rewrite Ascii.eqb_sym.
    + destruct (ascii_dec c d) as [->|Hcd].
      * rewrite Ascii.eqb_refl. now apply IH.
      * assert (Hdc : Ascii.eqb d c = false)
          by (apply Ascii.eqb_neq; congruence).
        rewrite Hdc. eexists; split; [reflexivity|]. now apply byte_diff.
Qed.

End CStrings.

(** ** The small json-glib reads back what it writes *)

Module MiniJsonFacts.

Import MiniJson.

Local Open Scope string_scope.

Lemma append_assoc (s t u : string) : (s ++ t) ++ u = s ++ t ++ u.
Proof. induction s as [|c s IH]; simpl; [reflexivity|now rewrite IH]. Qed.

Lemma length_append (s t : string) :
  String.length (s ++ t) = (String.length s + String.length t)%nat.
Proof. induction s as [|c s IH]; simpl; [reflexivity|now rewrite IH]. Qed.

Lemma read_string_escape_char (c : ascii) (t : string) :
  read_string (escape_char c ++ t) = push c (read_string t).
Proof.
  destruct c as [[] [] [] [] [] [] [] []]; reflexivity.
Qed.

Lemma read_string_escape (s rest : string) :
  read_string (escape s ++ CString.dquote ++ rest) = Some (s, rest).
Proof.
  induction s as [|c s IH].
  - reflexivity.
  - cbn [escape]. rewrite append_assoc, read_string_escape_char, IH.
    reflexivity.
Qed.

Lemma span_number_uint (d : Decimal.uint) (rest : string) :
  starts_number rest = false ->
  span_number (NilEmpty.string_of_uint d ++ rest) =
  (NilEmpty.string_of_uint d, rest).
Proof.
  intros Hrest.
  induction d as [|d IH|d IH|d IH|d IH|d IH|d IH|d IH|d IH|d IH|d IH];
    try (cbn [NilEmpty.string_of_uint append span_number]; rewrite IH;
         reflexivity).
  destruct rest as [|c rest]; [reflexivity|].
  simpl in Hrest. cbn [NilEmpty.string_of_uint append span_number].
  now rewrite Hrest.
Qed.

Lemma span_number_int (z : Z) (rest : string) :
  starts_number rest = false ->
  span_number (NilEmpty.string_of_int (Z.to_int z) ++ rest) =
  (NilEmpty.string_of_int (Z.to_int z), rest).
Proof.
  intros Hrest. destruct (Z.to_int z) as [d|d].
  - now apply span_number_uint.
  - cbn [NilEmpty.string_of_int append span_number].
    change (is_number_char "-") with true. cbv iota.
    now rewrite span_number_uint.
Qed.

Lemma string_of_int_head (z : Z) :
  exists c s,
    NilEmpty.string_of_int (Z.to_int z) = String c s /\
    is_number_char c = true.
Proof.
  destruct z as [|p|p]; simpl.
  - now exists "0"%char, "".
  - pose proof (DecimalPos.Unsigned.to_uint_nonnil p) as Hp.
    destruct (Pos.to_uint p); try congruence; eexists; eexists;
      (split; [reflexivity|reflexivity]).
  - eexists; eexists; split; reflexivity.
Qed.

Lemma read_value_write (v : JsonValue) (rest : string) :
  starts_number rest = false ->
  read_value (write_value v ++ rest) = Some (v, rest).
Proof.
  intros Hrest. destruct v as [z|s].
  - cbn [write_value].
    destruct (string_of_int_head z) as [c [t [Hz Hc]]].
    pose proof (span_number_int z rest Hrest) as Hspan.
    rewrite Hz in *. cbn [append read_value].
    assert (Hq : (N_of_ascii c =? 34)%N = false).
    { unfold is_number_char in Hc.
      destruct (N_of_ascii c =? 34)%N eqn:H34; [|reflexivity].
      apply N.eqb_eq in H34. rewrite H34 in Hc. discriminate. }
    rewrite Hq. cbn [append] in Hspan. rewrite Hspan.
    rewrite <- Hz, NilEmpty.isi, DecimalZ.of_to. reflexivity.
  - cbn [write_value]. unfold CString.quoted.
    rewrite !append_assoc. cbn [CString.dquote append read_value].
    change (N_of_ascii (ascii_of_nat 34) =? 34)%N with true. cbv iota.
    change (String (ascii_of_nat 34) rest) with (CString.dquote ++ rest).
    now rewrite read_string_escape.
Qed.

Lemma read_member_write (m : string * JsonValue) (rest : string) :
  starts_number rest = false ->
  read_member (write_member m ++ rest) = Some (m, rest).
Proof.
  intros Hrest. destruct m as [k v].
  unfold write_member, CString.quoted. cbn [fst snd].
  rewrite !append_assoc. cbn [CString.dquote append read_member].
  change (N_of_ascii (ascii_of_nat 34) =? 34)%N with true. cbv iota.
  change (String (ascii_of_nat 34) (String ":" (write_value v ++ rest)))
    with (CString.dquote ++ String ":" (write_value v ++ rest)).
  rewrite read_string_escape.
  change (N_of_ascii ":" =? 58)%N with true. cbv iota.
  now rewrite read_value_write.
Qed.

Lemma read_members_write (o : JsonObject) (m : string * JsonValue)
  (fuel : nat) (rest : string) :
  (List.length (m :: o) <= fuel)%nat ->
  read_members fuel (write_members (m :: o) ++ "}" ++ rest) =
  Some (m :: o, rest).
Proof.
  revert m fuel; induction o as [|m' o IH]; intros m fuel Hfuel;
    (destruct fuel as [|fuel]; [simpl in Hfuel; lia|]).
  - cbn [write_members read_members].
    rewrite read_member_write by reflexivity.
    reflexivity.
  - change (write_members (m :: m' :: o))
      with (write_member m ++ "," ++ write_members (m' :: o)).
    rewrite !append_assoc. cbn [read_members].
    rewrite read_member_write by reflexivity.
    cbn [append]. change (N_of_ascii "," =? 44)%N with true. cbv iota.
    change (String "}" rest) with ("}" ++ rest).
    rewrite IH by (simpl in *; lia).
    reflexivity.
Qed.

Lemma write_members_length (o : JsonObject) :
  (List.length o <= String.length (write_members o))%nat.
Proof.
  induction o as [|m [|m' o] IH].
  - simpl; lia.
  - destruct m as [k v]. unfold write_members, write_member, CString.quoted.
    simpl. lia.
  - change (write_members (m :: m' :: o))
      with (write_member m ++ "," ++ write_members (m' :: o)).
    rewrite !length_append. simpl in *. lia.
Qed.

(** Every object is read back from its text. *)
Lemma parse_generate (o : JsonObject) : parse (generate o) = Some o.
Proof.
  destruct o as [|m o]; [reflexivity|].
  unfold generate.
  assert (Hhead : exists t,
             write_members (m :: o) = String (ascii_of_nat 34) t).
  { destruct m as [k v]. destruct o; eexists; reflexivity. }
  destruct Hhead as [t Ht].
  pose proof (read_members_write o m
                (String.length (write_members (m :: o) ++ "}")) ""
                ltac:(rewrite length_append;
                      pose proof (write_members_length (m :: o)); lia))
    as Hread.
  rewrite Ht in *. cbn [append parse].
  change (N_of_ascii "{" =? 123)%N with true. cbv iota.
  change (N_of_ascii (ascii_of_nat 34) =? 125)%N with false. cbv iota.
  cbn [append] in Hread. rewrite Hread. reflexivity.
Qed.

Lemma json_round_trip (o : JsonObject) :
  @json_parser_load_from_data json (@json_generator_to_data json o) = Some o.
Proof. apply parse_generate. Qed.

End MiniJsonFacts.

(** ** The reply of the STT service *)

Section SttReply.

Context {json : JsonGlib}.

Ltac literal_prefix lit t :=
  let H := fresh "Hlit" in
  pose proof (strncmp_prefix lit eq_refl t) as H;
  cbn [String.length] in H; rewrite H; clear H.

(** A text reply with status 0 and a result that begins with [ok] is taken
    as valid. *)
Lemma on_message_recognized
  (conn : SoupWebsocketConnection) (message result : string)
  (text : option string) (a : App) :
  CString.to_int (member_int message "status") = 0 ->
  member_string message "result" = Some result ->
  String.prefix "ok" result = true ->
  member_string message "text" = text ->
  STT.on_message conn SOUP_WEBSOCKET_DATA_TEXT message a =
  recognized conn text a.
Proof.
  unfold member_int, member_string. intros Hstatus Hresult Hok Htext.
  unfold STT.on_message, recognized.
  rewrite Hstatus, Hresult, Htext.
  destruct (memcmp_prefix "ok" eq_refl result) as [z [Hz Hz0]].
  cbn [String.length] in Hz.
  cbv [bind emit modify ret deref fault]. change (0 =? 0) with true. cbv iota.
  rewrite Hz, Hz0, Hok.
  destruct text as [t|]; [|reflexivity].
  literal_prefix "Computer,"%string t. literal_prefix "computer,"%string t.
  literal_prefix "Computer."%string t. literal_prefix "computer."%string t.
  literal_prefix "Computer"%string t. literal_prefix "computer"%string t.
  unfold wake_phrases, strip_wake_phrase.
  destruct (String.prefix "Computer," t); [reflexivity|].
  destruct (String.prefix "computer," t); [reflexivity|].
  destruct (String.prefix "Computer." t); [reflexivity|].
  destruct (String.prefix "computer." t); [reflexivity|].
  destruct (String.prefix "Computer" t); [reflexivity|].
  destruct (String.prefix "computer" t); reflexivity.
Qed.

(** A text reply whose status is not 0 as an [int] is a failure. *)
Lemma on_message_rejected
  (conn : SoupWebsocketConnection) (message : string) (a : App) :
  CString.to_int (member_int message "status") <> 0 ->
  STT.on_message conn SOUP_WEBSOCKET_DATA_TEXT message a = rejected conn a.
Proof.
  unfold member_int. intros Hstatus. apply Z.eqb_neq in Hstatus.
  unfold STT.on_message, rejected, failure_cue.
  rewrite Hstatus. reflexivity.
Qed.

(** A text reply with status 0 and a result that does not begin with [ok]:
    the reply is tracked and the transport closed. *)
Lemma on_message_not_ok
  (conn : SoupWebsocketConnection) (message result : string) (a : App) :
  CString.to_int (member_int message "status") = 0 ->
  member_string message "result" = Some result ->
  String.prefix "ok" result = false ->
  STT.on_message conn SOUP_WEBSOCKET_DATA_TEXT message a =
  (emit (track_processing_event PROCESSING_END_STT) ;;
   emit (soup_websocket_connection_close conn)) a.
Proof.
  unfold member_int, member_string. intros Hstatus Hresult Hok.
  unfold STT.on_message. rewrite Hstatus, Hresult.
  destruct (memcmp_prefix "ok" eq_refl result) as [z [Hz Hz0]].
  cbn [String.length] in Hz.
  cbv [bind emit modify ret deref fault]. change (0 =? 0) with true. cbv iota.
  rewrite Hz, Hz0, Hok. reflexivity.
Qed.


Lemma prefix_snoc (p : string) (c : ascii) (text : string) :
  String.prefix (p ++ String c EmptyString) text =
  String.prefix p text &&
  match String.get (String.length p) text with
  | Some d => Ascii.eqb c d
  | None => false
  end.
Proof.
  revert text; induction p as [|b p IH]; intros [|d text]; simpl;
    try reflexivity.
  - destruct (ascii_dec c d) as [->|Hcd].
    + rewrite Ascii.eqb_refl. now destruct text.
    + apply Ascii.eqb_neq in Hcd. now rewrite Hcd.
  - destruct (ascii_dec b d); [apply IH|reflexivity].
Qed.


(** C3, as amended.  A text reply whose status is not 0 (as the [int] the
    client reads) triggers the failure cue, the no-match sound and playback
    resume, and nothing else but the tracking of the reply and the closing
    of the transport.  A reply with status 0 whose result does not begin
    with [ok] forwards no command: the dialogue client is untouched and no
    text goes out on a socket.  A reply with status 0 whose result begins
    with [ok] is the one taken as valid. *)
Theorem stt_reply_validity
  (conn : SoupWebsocketConnection) (message : string) (a : App) :
  (CString.to_int (member_int message "status") <> 0 ->
   STT.on_message conn SOUP_WEBSOCKET_DATA_TEXT message a =
   (emit (track_processing_event PROCESSING_END_STT) ;;
    emit (AudioPlayer_playSound SOUND_NO_MATCH None) ;;
    emit AudioPlayer_resume ;;
    emit (soup_websocket_connection_close conn)) a) /\
  (forall result,
      CString.to_int (member_int message "status") = 0 ->
      member_string message "result" = Some result ->
      String.prefix "ok" result = false ->
      exists a1 new,
        exec (STT.on_message conn SOUP_WEBSOCKET_DATA_TEXT message) a =
        Some a1 /\
        m_wsClient a1 = m_wsClient a /\
        effects a1 = effects a ++ new /\
        forall c t, ~ In (soup_websocket_connection_send_text c t) new) /\
  (forall result,
      CString.to_int (member_int message "status") = 0 ->
      member_string message "result" = Some result ->
      String.prefix "ok" result = true ->
      STT.on_message conn SOUP_WEBSOCKET_DATA_TEXT message a =
      recognized conn (member_string message "text") a).
Proof.
  split; [|split].
  - intros Hstatus. now rewrite on_message_rejected.
  - intros result Hstatus Hresult Hok.
    unfold exec. rewrite (on_message_not_ok conn message result a); auto.
    eexists. eexists. split; [reflexivity|].
    destruct a as [cfg stt ws st eff]; run.
    split; [reflexivity|]. split; [now rewrite <- app_assoc|].
    intros c t [H|[H|[]]]; discriminate.
  - intros result Hstatus Hresult Hok.
    now apply (on_message_recognized conn message result).
Qed.

(** C9.  With status 0, a result whose first two bytes are [ok] is taken as
    valid, whatever follows them. *)
Theorem stt_result_ok_prefix
  (conn : SoupWebsocketConnection) (message rest : string)
  (text : option string) (a : App) :
  member_int message "status" = 0 ->
  member_string message "result" = Some ("ok" ++ rest)%string ->
  member_string message "text" = text ->
  STT.on_message conn SOUP_WEBSOCKET_DATA_TEXT message a =
  recognized conn text a.
Proof.
  intros Hstatus Hresult Htext.
  apply (on_message_recognized conn message ("ok" ++ rest)%string).
  - now rewrite Hstatus.
  - exact Hresult.
  - simpl. now destruct rest.
  - exact Htext.
Qed.

(** C10, as amended.  A valid reply whose text begins with [Computer] or
    [computer] always has its wake word found.  Eight characters are
    stripped when the ninth character is neither a comma nor a full stop,
    also inside a longer word; nine are stripped when it is one of them. *)
Theorem stt_wake_word_in_word
  (conn : SoupWebsocketConnection) (message text : string) (a : App) :
  CString.to_int (member_int message "status") = 0 ->
  member_string message "result" = Some "ok"%string ->
  member_string message "text" = Some text ->
  String.prefix "Computer" text || String.prefix "computer" text = true ->
  STT.on_message conn SOUP_WEBSOCKET_DATA_TEXT message a =
  (emit (track_processing_event PROCESSING_END_STT) ;;
   emit AudioPlayer_clean_queue ;;
   wsClient.sendCommand
     (CString.g_strchug
        (CString.advance (if delimited text then 9 else 8) text)) ;;
   emit (soup_websocket_connection_close conn)) a.
Proof.
  intros Hstatus Hresult Htext Hword.
  rewrite (on_message_recognized conn message "ok" (Some text) a); auto.
  unfold recognized.
  assert (Hstrip : strip_wake_phrase wake_phrases text =
                   Some (CString.g_strchug
                           (CString.advance
                              (if delimited text then 9 else 8) text))).
  { unfold wake_phrases, strip_wake_phrase, delimited.
    change "Computer,"%string
      with ("Computer" ++ String "," EmptyString)%string.
    change "computer,"%string
      with ("computer" ++ String "," EmptyString)%string.
    change "Computer."%string
      with ("Computer" ++ String "." EmptyString)%string.
    change "computer."%string
      with ("computer" ++ String "." EmptyString)%string.
    rewrite !prefix_snoc. cbn [String.length].
    destruct (String.get 8 text) as [c|];
      destruct (String.prefix "Computer" text);
      destruct (String.prefix "computer" text);
      try discriminate Hword; cbn [andb orb];
      try reflexivity;
      destruct (Ascii.eqb "," c); destruct (Ascii.eqb "." c); reflexivity. }
  cbv [bind emit modify ret deref]. rewrite Hstrip. reflexivity.
Qed.

End SttReply.

(** ** The events of the dialogue service *)

Section Dialogue.

Context {json : JsonGlib}.

Ltac split_cases :=
  repeat match goal with
    | |- context [if ?b then _ else _] => destruct b eqn:?
    | |- context [match ?x with _ => _ end] => destruct x eqn:?
    end.

(** C4, as amended.  A text event whose id is not greater than the id of
    the last text said is discarded: the client records the id as its
    sequence number and does nothing else, so nothing reaches the audio
    player.  A text event with a greater id, received while accept-stream
    is true, is handed to the audio player and its id becomes the id of the
    last text said. *)
Theorem dialogue_text_guard
  (conn : SoupWebsocketConnection) (message : string) (a : App) :
  member_string message "type" = Some "text"%string ->
  (member_int message "id" <= ws_lastSaidTextID (m_wsClient a) ->
   wsClient.on_message conn SOUP_WEBSOCKET_DATA_TEXT message a =
   wsClient.set_seq (member_int message "id") a) /\
  (ws_lastSaidTextID (m_wsClient a) < member_int message "id" ->
   ws_acceptStream (m_wsClient a) = true ->
   exists a1,
     exec (wsClient.on_message conn SOUP_WEBSOCKET_DATA_TEXT message) a =
     Some a1 /\
     effects a1 =
       effects a ++
       (if ws_tInit (m_wsClient a)
        then [track_processing_event PROCESSING_END_GENIE] else []) ++
       [AudioPlayer_say (member_string message "text")] /\
     ws_lastSaidTextID (m_wsClient a1) = member_int message "id").
Proof.
  unfold member_string, member_int. intros Htype.
  unfold wsClient.on_message. rewrite Htype.
  destruct a as [cfg stt [w acc cid tok u sq last ti] st eff].
  split.
  - intros Hstale. apply Z.leb_le in Hstale. simpl in Hstale.
    unfold wsClient.handleText. destruct acc; run; [|reflexivity].
    now rewrite Hstale.
  - simpl. intros Hfresh ->. apply Z.leb_gt in Hfresh.
    unfold wsClient.handleText. run. rewrite Hfresh.
    destruct ti; run; eexists; (split; [reflexivity|]); simpl;
      (split; [|reflexivity]); now rewrite <- ?app_assoc.
Qed.

(** C5, as amended.  While accept-stream is false, a message whose type
    does not begin with [id] is dropped: the client records its id as the
    sequence number and does nothing else.  A message whose type begins
    with [id] is processed whatever accept-stream is: the string under [id]
    becomes the conversation id and accept-stream becomes true. *)
Theorem dialogue_accept_stream_gate
  (conn : SoupWebsocketConnection) (message type : string) (a : App) :
  member_string message "type" = Some type ->
  (wsClient.type_is type "id" 2 = false ->
   ws_acceptStream (m_wsClient a) = false ->
   wsClient.on_message conn SOUP_WEBSOCKET_DATA_TEXT message a =
   wsClient.set_seq (member_int message "id") a) /\
  (wsClient.type_is type "id" 2 = true ->
   exists a1,
     exec (wsClient.on_message conn SOUP_WEBSOCKET_DATA_TEXT message) a =
     Some a1 /\
     ws_conversationId (m_wsClient a1) = member_string message "id" /\
     ws_acceptStream (m_wsClient a1) = true /\
     effects a1 = effects a).
Proof.
  unfold member_string, member_int. intros Htype.
  unfold wsClient.on_message. rewrite Htype.
  destruct a as [cfg stt [w acc cid tok u sq last ti] st eff].
  split.
  - simpl. intros Hid ->. run. now rewrite Hid.
  - intros Hid. run. rewrite Hid. eexists.
    unfold wsClient.handleConversationID. run.
    split; [reflexivity|]. now simpl.
Qed.

(** C6, as amended.  A ping received while accept-stream is true and the
    connection of the client is open is answered by exactly one pong; the
    ping handler does nothing else (the client has recorded the id of the
    ping as its sequence number before calling it). *)
Theorem dialogue_ping_pong
  (conn : SoupWebsocketConnection) (message : string) (a : App) :
  member_string message "type" = Some "ping"%string ->
  ws_acceptStream (m_wsClient a) = true ->
  wsClient.checkIsConnected a = true ->
  wsClient.on_message conn SOUP_WEBSOCKET_DATA_TEXT message a =
  (wsClient.set_seq (member_int message "id") ;; emit (pong a)) a /\
  forall id reader, wsClient.handlePing id reader a = emit (pong a) a.
Proof.
  unfold member_string, member_int. intros Htype Hacc Hconn.
  unfold wsClient.on_message. rewrite Htype.
  destruct a as [cfg stt [w acc cid tok u sq last ti] st eff].
  simpl in Hacc; subst acc.
  unfold wsClient.checkIsConnected in Hconn; simpl in Hconn.
  split.
  - unfold wsClient.handlePing, wsClient.sendJSON, wsClient.checkIsConnected,
      pong.
    run. now rewrite Hconn.
  - intros id reader.
    unfold wsClient.handlePing, wsClient.sendJSON, wsClient.checkIsConnected,
      pong.
    run. now rewrite Hconn.
Qed.

Lemma added_app (a a1 : App) (new : list Effect) :
  effects a1 = effects a ++ new -> added a (Some a1) = new.
Proof.
  intros Heff. unfold added.
  rewrite Heff, skipn_app, skipn_all, Nat.sub_diag. reflexivity.
Qed.

Lemma quiet_ret {A : Type} (x : A) : quiet (ret x).
Proof.
  intros a y a1 Hrun. inversion Hrun; subst.
  exists []. now rewrite app_nil_r.
Qed.

Lemma quiet_fault {A : Type} : quiet (@fault A).
Proof. intros a y a1 Hrun. discriminate. Qed.

Lemma quiet_deref {A : Type} (p : option A) : quiet (deref p).
Proof. destruct p; [apply quiet_ret|apply quiet_fault]. Qed.

Lemma quiet_gets {A : Type} (f : App -> A) : quiet (gets f).
Proof.
  intros a y a1 Hrun. inversion Hrun; subst.
  exists []. now rewrite app_nil_r.
Qed.

Lemma quiet_wsClient (f : wsClient_t -> wsClient_t) :
  quiet (modify (with_wsClient f)).
Proof.
  intros a y a1 Hrun. inversion Hrun; subst.
  exists []. simpl. now rewrite app_nil_r.
Qed.

Lemma quiet_emit (e : Effect) : is_connect e = false -> quiet (emit e).
Proof.
  intros He a y a1 Hrun. inversion Hrun; subst.
  exists [e]. simpl. now rewrite He.
Qed.

Lemma quiet_bind {A B : Type} (c : M A) (k : A -> M B) :
  quiet c -> (forall x, quiet (k x)) -> quiet (bind c k).
Proof.
  intros Hc Hk a y a2 Hrun. unfold bind in Hrun.
  destruct (c a) as [[x a1]|] eqn:Hca; [|discriminate].
  destruct (Hc a x a1 Hca) as [new1 [Heff1 Hnone1]].
  destruct (Hk x a1 y a2 Hrun) as [new2 [Heff2 Hnone2]].
  exists (new1 ++ new2). split.
  - now rewrite Heff2, Heff1, app_assoc.
  - now rewrite filter_app, Hnone1, Hnone2.
Qed.

Lemma quiet_if {A : Type} (b : bool) (c1 c2 : M A) :
  quiet c1 -> quiet c2 -> quiet (if b then c1 else c2).
Proof. now destruct b. Qed.

Ltac quiet_step :=
  first
    [ apply quiet_ret
    | apply quiet_gets
    | apply quiet_deref
    | apply quiet_wsClient
    | apply quiet_emit; reflexivity
    | apply quiet_if
    | apply quiet_bind; [|intros ?] ].

(** A message never makes the dialogue client connect. *)
Lemma on_message_quiet
  (conn : SoupWebsocketConnection) (data_type : SoupWebsocketDataType)
  (message : string) :
  quiet (wsClient.on_message conn data_type message).
Proof.
  unfold wsClient.on_message, wsClient.handleConversationID,
    wsClient.handleText, wsClient.handleSound, wsClient.handleAudio,
    wsClient.handleError, wsClient.handleAskSpecial, wsClient.handlePing,
    wsClient.sendJSON, wsClient.set_seq, wsClient.set_acceptStream,
    wsClient.set_conversationId, wsClient.set_lastSaidTextID,
    wsClient.set_tInit.
  destruct data_type; repeat quiet_step.
Qed.

Lemma on_message_no_connect
  (conn : SoupWebsocketConnection) (data_type : SoupWebsocketDataType)
  (message : string) (a : App) :
  filter is_connect
    (added a (exec (wsClient.on_message conn data_type message) a)) = [].
Proof.
  unfold exec.
  destruct (wsClient.on_message conn data_type message a)
    as [[x a1]|] eqn:Hrun; [|reflexivity].
  destruct (on_message_quiet conn data_type message a x a1 Hrun)
    as [new [Heff Hnone]].
  now rewrite (added_app a a1 new Heff).
Qed.

(** C7.  When the transport of the dialogue client closes, [on_close] calls
    [connect] once: it adds one connection attempt to the log and nothing
    else, inside the callback itself, so before any other callback runs.
    No other callback of the client connects: not the arrival of a message,
    and not the outcome of a connection attempt, failed or not. *)
Theorem dialogue_reconnect_on_close
  (conn : SoupWebsocketConnection) (cb : Callback) (a : App) :
  (exists e,
      wsClient.on_close conn a =
      Some (tt, with_effects (fun l => l ++ [e]) a) /\
      is_connect e = true) /\
  List.length (filter is_connect (added a (exec (dispatch cb) a))) =
  match cb with
  | OnClose _ => 1%nat
  | _ => 0%nat
  end.
Proof.
  split.
  - eexists. unfold wsClient.on_close, wsClient.connect. run.
    split; reflexivity.
  - destruct cb as [c data_type message|c|[|c]]; simpl.
    + now rewrite on_message_no_connect.
    + unfold wsClient.on_close, wsClient.connect. run.
      rewrite skipn_app, skipn_all, Nat.sub_diag. reflexivity.
    + run. now rewrite skipn_all.
    + run. rewrite skipn_app, skipn_all, Nat.sub_diag. reflexivity.
Qed.

End Dialogue.

(** ** The command message *)

Section CommandMessage.

Context {json : JsonGlib}.

(** What the client relies on json-glib for: an object with distinct member
    names is read back from the text generated for it. *)
Hypothesis json_glib_round_trip :
  forall o : JsonObject,
    NoDup (map fst o) ->
    json_parser_load_from_data (json_generator_to_data o) = Some o.

(** C8.  The text of the command message [sendCommand] builds for a
    command, read back by the parser, is an object whose type is [command]
    and whose text is the command; it is the text [sendCommand] sends when
    the client is connected. *)
Theorem command_round_trip (data : string) :
  exists text,
    member_string text "type" = Some "command"%string /\
    member_string text "text" = Some data /\
    forall a,
      wsClient.checkIsConnected a = true ->
      wsClient.sendCommand data a =
      (emit (soup_websocket_connection_send_text (ws_wconn (m_wsClient a))
               text) ;;
       emit (track_processing_event PROCESSING_START_GENIE) ;;
       wsClient.set_tInit true) a.
Proof.
  exists (json_generator_to_data (wsClient.command_message data)).
  assert (Hnames : NoDup (map fst (wsClient.command_message data))).
  { simpl. repeat constructor; simpl; intuition discriminate. }
  unfold member_string. rewrite (json_glib_round_trip _ Hnames).
  split; [reflexivity|]. split; [reflexivity|].
  intros a Hconn.
  unfold wsClient.sendCommand, wsClient.sendJSON.
  unfold bind at 1. unfold gets at 1. rewrite Hconn. reflexivity.
Qed.

End CommandMessage.

(** ** Runs on the example device *)

Module Runs.

Import Example.

#[local] Existing Instance MiniJson.json.

Local Open Scope string_scope.

Lemma stt_queue_fifo_witness :
  STT.is_connection_open app_connecting = false /\
  STT.is_connection_open app_backlog = true /\
  (exists a2,
      exec (calls [SendFrame frame1; SendFrame frame2; SendDone] ;;
            STT.on_connection (Connected 2%nat)) app_connecting = Some a2 /\
      effects a2 =
        [soup_websocket_connection_send_text (Some 2%nat) STT.handshake;
         soup_websocket_connection_send_binary (Some 2%nat)
           (Some [1; -2; 3]) 6;
         soup_websocket_connection_send_binary (Some 2%nat) (Some [4; 5]) 4;
         soup_websocket_connection_send_binary (Some 2%nat) None 0] /\
      stt_queue (m_stt a2) = []) /\
  (exists b1,
      exec (STT.send_frame frame3) app_backlog = Some b1 /\
      effects b1 =
        [soup_websocket_connection_send_binary (Some 2%nat) (Some [7; 8]) 4;
         soup_websocket_connection_send_binary (Some 2%nat) None 0;
         soup_websocket_connection_send_binary (Some 2%nat) (Some [-6]) 2]).
Proof.
  assert (Hclosed : STT.is_connection_open app_connecting = false)
    by reflexivity.
  assert (Hopen : STT.is_connection_open app_backlog = true) by reflexivity.
  split; [exact Hclosed|]. split; [exact Hopen|].
  destruct (stt_queue_fifo app_connecting
              [SendFrame frame1; SendFrame frame2; SendDone] 2%nat
              app_backlog frame3 Hclosed Hopen)
    as [[a1 [a2 [Hcalls [_ [_ [Hconn [Heff Hq]]]]]]] [[b1 [Hb [Hbeff _]]] _]].
  split.
  - exists a2. split; [|split; [exact Heff|exact Hq]].
    unfold exec, bind in *.
    destruct (calls [SendFrame frame1; SendFrame frame2; SendDone]
                app_connecting) as [[u a1']|]; [|discriminate].
    inversion Hcalls; subst a1'. exact Hconn.
  - exists b1. split; [exact Hb|exact Hbeff].
Defined.


(** The wake phrases are matched as written: a text in capitals has no
    wake word. *)
Lemma stt_wake_phrase_upper_case :
  stt_calls reply_upper_case app =
  Some
    [track_processing_event PROCESSING_END_STT;
     AudioPlayer_clean_queue;
     AudioPlayer_playSound SOUND_NO_MATCH None;
     AudioPlayer_resume;
     soup_websocket_connection_close 2%nat].
Proof. reflexivity. Qed.

(** C3 as stated fails: with status 0 and the result [error] there is no
    failure cue and no resume, only the tracking and the closing; with
    status 0 and the result [okay] the reply is taken as valid and a
    command goes out. *)
Lemma stt_reply_validity_counterexample :
  member_int reply_error "status" = 0 /\
  member_string reply_error "result" = Some "error" /\
  stt_calls reply_error app =
  Some
    [track_processing_event PROCESSING_END_STT;
     soup_websocket_connection_close 2%nat] /\
  member_int reply_okay "status" = 0 /\
  member_string reply_okay "result" = Some "okay" /\
  stt_calls reply_okay app =
  Some
    [track_processing_event PROCESSING_END_STT;
     AudioPlayer_clean_queue;
     soup_websocket_connection_send_text (Some 1%nat) (command_text "hi");
     track_processing_event PROCESSING_START_GENIE;
     soup_websocket_connection_close 2%nat].
Proof. repeat split; reflexivity. Qed.

Lemma stt_reply_validity_witness :
  (CString.to_int (member_int reply_failed "status") <> 0 /\
   stt_calls reply_failed app =
   Some
     [track_processing_event PROCESSING_END_STT;
      AudioPlayer_playSound SOUND_NO_MATCH None;
      AudioPlayer_resume;
      soup_websocket_connection_close 2%nat]) /\
  (CString.to_int (member_int reply_error "status") = 0 /\
   member_string reply_error "result" = Some "error" /\
   String.prefix "ok" "error" = false /\
   exists a1 new,
     exec (STT.on_message 2%nat SOUP_WEBSOCKET_DATA_TEXT reply_error) app =
     Some a1 /\
     m_wsClient a1 = m_wsClient app /\
     effects a1 = (effects app ++ new)%list /\
     forall c t, ~ In (soup_websocket_connection_send_text c t) new) /\
  (CString.to_int (member_int reply_okay "status") = 0 /\
   member_string reply_okay "result" = Some "okay" /\
   String.prefix "ok" "okay" = true /\
   STT.on_message 2%nat SOUP_WEBSOCKET_DATA_TEXT reply_okay app =
   recognized 2%nat (member_string reply_okay "text") app).
Proof.
  split; [|split].
  - assert (H1 : CString.to_int (member_int reply_failed "status") <> 0)
      by (vm_compute; discriminate).
    split; [exact H1|]. unfold stt_calls, exec.
    rewrite (proj1 (stt_reply_validity 2%nat reply_failed app) H1).
    reflexivity.
  - assert (H1 : CString.to_int (member_int reply_error "status") = 0)
      by reflexivity.
    assert (H2 : member_string reply_error "result" = Some "error")
      by reflexivity.
    assert (H3 : String.prefix "ok" "error" = false) by reflexivity.
    split; [exact H1|]. split; [exact H2|]. split; [exact H3|].
    exact (proj1 (proj2 (stt_reply_validity 2%nat
                           reply_error app)) "error" H1 H2 H3).
  - assert (H1 : CString.to_int (member_int reply_okay "status") = 0)
      by reflexivity.
    assert (H2 : member_string reply_okay "result" = Some "okay")
      by reflexivity.
    assert (H3 : String.prefix "ok" "okay" = true) by reflexivity.
    split; [exact H1|]. split; [exact H2|]. split; [exact H3|].
    exact (proj2 (proj2 (stt_reply_validity 2%nat
                           reply_okay app)) "okay" H1 H2 H3).
Defined.

Lemma stt_result_ok_prefix_witness :
  member_int reply_okay "status" = 0 /\
  member_string reply_okay "result" = Some ("ok" ++ "ay") /\
  member_string reply_okay "text" = Some "computer, hi" /\
  STT.on_message 2%nat SOUP_WEBSOCKET_DATA_TEXT reply_okay app =
  recognized 2%nat (Some "computer, hi") app.
Proof.
  assert (H1 : member_int reply_okay "status" = 0) by reflexivity.
  assert (H2 : member_string reply_okay "result" = Some ("ok" ++ "ay"))
    by reflexivity.
  assert (H3 : member_string reply_okay "text" = Some "computer, hi")
    by reflexivity.
  split; [exact H1|]. split; [exact H2|]. split; [exact H3|].
  exact (stt_result_ok_prefix 2%nat reply_okay "ay"
           (Some "computer, hi") app H1 H2 H3).
Defined.

(** C10 as stated fails: the first eight characters of [computer, hi] are
    [computer], yet nine characters are stripped: the command is [hi], where
    stripping eight and trimming would leave the comma. *)
Lemma stt_wake_word_in_word_counterexample :
  String.prefix "computer" "computer, hi" = true /\
  member_string reply_comma "text" = Some "computer, hi" /\
  stt_calls reply_comma app =
  Some
    [track_processing_event PROCESSING_END_STT;
     AudioPlayer_clean_queue;
     soup_websocket_connection_send_text (Some 1%nat) (command_text "hi");
     track_processing_event PROCESSING_START_GENIE;
     soup_websocket_connection_close 2%nat] /\
  CString.g_strchug (CString.advance 8 "computer, hi") = ", hi" /\
  command_text ", hi" <> command_text "hi".
Proof. repeat split; try reflexivity. vm_compute. discriminate. Qed.

Lemma stt_wake_word_in_word_witness :
  CString.to_int (member_int reply_computerize "status") = 0 /\
  member_string reply_computerize "result" = Some "ok" /\
  member_string reply_computerize "text" = Some "computerize the data" /\
  String.prefix "Computer" "computerize the data"
  || String.prefix "computer" "computerize the data" = true /\
  stt_calls reply_computerize app =
  Some
    [track_processing_event PROCESSING_END_STT;
     AudioPlayer_clean_queue;
     soup_websocket_connection_send_text (Some 1%nat)
       (command_text "ize the data");
     track_processing_event PROCESSING_START_GENIE;
     soup_websocket_connection_close 2%nat].
Proof.
  assert (H1 : CString.to_int (member_int reply_computerize "status") = 0)
    by reflexivity.
  assert (H2 : member_string reply_computerize "result" = Some "ok")
    by reflexivity.
  assert (H3 : member_string reply_computerize "text" =
               Some "computerize the data") by reflexivity.
  assert (H4 : String.prefix "Computer" "computerize the data"
               || String.prefix "computer" "computerize the data" = true)
    by reflexivity.
  split; [exact H1|]. split; [exact H2|]. split; [exact H3|].
  split; [exact H4|].
  unfold stt_calls, exec.
  rewrite (stt_wake_word_in_word 2%nat
             reply_computerize "computerize the data" app H1 H2 H3 H4).
  reflexivity.
Defined.

(** C4 as stated fails: a sound event whose id is not greater than the id
    of the last text said still reaches the audio player, and a text event
    with a greater id that arrives before the conversation id does not. *)
Lemma dialogue_text_guard_counterexample :
  member_int event_sound_3 "id" <= ws_lastSaidTextID (m_wsClient app) /\
  genie_calls 1%nat event_sound_3 app =
  Some [AudioPlayer_playSound SOUND_NEWS_INTRO (Some true)] /\
  ws_lastSaidTextID (m_wsClient app_handshake) < member_int event_text_7 "id" /\
  genie_calls 1%nat event_text_7 app_handshake = Some [].
Proof. repeat split; try reflexivity. vm_compute. discriminate. Qed.

Lemma dialogue_text_guard_witness :
  member_string event_text_3 "type" = Some "text" /\
  member_int event_text_3 "id" <= ws_lastSaidTextID (m_wsClient app) /\
  genie_calls 1%nat event_text_3 app = Some [] /\
  member_string event_text_7 "type" = Some "text" /\
  ws_lastSaidTextID (m_wsClient app) < member_int event_text_7 "id" /\
  ws_acceptStream (m_wsClient app) = true /\
  exists a1,
    exec (wsClient.on_message 1%nat SOUP_WEBSOCKET_DATA_TEXT event_text_7)
      app = Some a1 /\
    effects a1 = [AudioPlayer_say (Some "hello")] /\
    ws_lastSaidTextID (m_wsClient a1) = 7.
Proof.
  assert (H1 : member_string event_text_3 "type" = Some "text")
    by reflexivity.
  assert (H2 : member_int event_text_3 "id" <=
               ws_lastSaidTextID (m_wsClient app))
    by (vm_compute; discriminate).
  assert (H3 : member_string event_text_7 "type" = Some "text")
    by reflexivity.
  assert (H4 : ws_lastSaidTextID (m_wsClient app) <
               member_int event_text_7 "id") by reflexivity.
  assert (H5 : ws_acceptStream (m_wsClient app) = true) by reflexivity.
  split; [exact H1|]. split; [exact H2|]. split.
  - unfold genie_calls, exec.
    rewrite (proj1 (dialogue_text_guard 1%nat event_text_3 app H1) H2).
    reflexivity.
  - split; [exact H3|]. split; [exact H4|]. split; [exact H5|].
    exact (proj2 (dialogue_text_guard 1%nat event_text_7 app H3) H4 H5).
Defined.

(** C5 as stated fails: a message of type [idle] that arrives while
    accept-stream is false is not dropped; it is taken for the id message,
    sets the conversation id and opens the stream. *)
Lemma dialogue_accept_stream_gate_counterexample :
  member_string event_idle "type" = Some "idle" /\
  ws_acceptStream (m_wsClient app_handshake) = false /\
  option_map m_wsClient
    (exec (wsClient.on_message 1%nat SOUP_WEBSOCKET_DATA_TEXT event_idle)
       app_handshake) =
  Some
    (mkWsClient (Some 1%nat) true (Some "abc") (Some "token")
       "wss://genie.example/api/conversation" 0 (-1) false).
Proof. repeat split; reflexivity. Qed.

Lemma dialogue_accept_stream_gate_witness :
  member_string event_text_7 "type" = Some "text" /\
  wsClient.type_is "text" "id" 2 = false /\
  ws_acceptStream (m_wsClient app_handshake) = false /\
  wsClient.on_message 1%nat SOUP_WEBSOCKET_DATA_TEXT event_text_7
    app_handshake =
  wsClient.set_seq 7 app_handshake /\
  member_string event_id "type" = Some "id" /\
  wsClient.type_is "id" "id" 2 = true /\
  exists a1,
    exec (wsClient.on_message 1%nat SOUP_WEBSOCKET_DATA_TEXT event_id)
      app_handshake = Some a1 /\
    ws_conversationId (m_wsClient a1) = Some "conv-42" /\
    ws_acceptStream (m_wsClient a1) = true /\
    effects a1 = effects app_handshake.
Proof.
  assert (H1 : member_string event_text_7 "type" = Some "text")
    by reflexivity.
  assert (H2 : wsClient.type_is "text" "id" 2 = false) by reflexivity.
  assert (H3 : ws_acceptStream (m_wsClient app_handshake) = false)
    by reflexivity.
  assert (H4 : member_string event_id "type" = Some "id") by reflexivity.
  assert (H5 : wsClient.type_is "id" "id" 2 = true) by reflexivity.
  split; [exact H1|]. split; [exact H2|]. split; [exact H3|]. split.
  - exact (proj1 (dialogue_accept_stream_gate 1%nat event_text_7 "text"
                    app_handshake H1) H2 H3).
  - split; [exact H4|]. split; [exact H5|].
    exact (proj2 (dialogue_accept_stream_gate 1%nat event_id "id"
                    app_handshake H4) H5).
Defined.

(** C6 as stated fails: a ping received while accept-stream is true gets no
    pong when the connection of the client is not open, here while it is
    being closed. *)
Lemma dialogue_ping_pong_counterexample :
  member_string event_ping "type" = Some "ping" /\
  ws_acceptStream (m_wsClient app_closing) = true /\
  genie_calls 3%nat event_ping app_closing =
  Some [].
Proof. repeat split; reflexivity. Qed.

Lemma dialogue_ping_pong_witness :
  member_string event_ping "type" = Some "ping" /\
  ws_acceptStream (m_wsClient app) = true /\
  wsClient.checkIsConnected app = true /\
  genie_calls 1%nat event_ping app =
  Some
    [soup_websocket_connection_send_text (Some 1%nat)
       (MiniJson.generate [("type", JString "pong")])].
Proof.
  assert (H1 : member_string event_ping "type" = Some "ping") by reflexivity.
  assert (H2 : ws_acceptStream (m_wsClient app) = true) by reflexivity.
  assert (H3 : wsClient.checkIsConnected app = true) by reflexivity.
  split; [exact H1|]. split; [exact H2|]. split; [exact H3|].
  unfold genie_calls, exec.
  rewrite (proj1 (dialogue_ping_pong 1%nat event_ping app H1 H2 H3)).
  reflexivity.
Defined.

Lemma command_round_trip_witness :
  (forall o : JsonObject,
      NoDup (map fst o) ->
      json_parser_load_from_data (json_generator_to_data o) = Some o) /\
  wsClient.checkIsConnected app = true /\
  exists text,
    member_string text "type" = Some "command" /\
    member_string text "text" = Some "turn on the lights" /\
    option_map effects (exec (wsClient.sendCommand "turn on the lights") app) =
    Some
      [soup_websocket_connection_send_text (Some 1%nat) text;
       track_processing_event PROCESSING_START_GENIE].
Proof.
  assert (H1 : forall o : JsonObject,
             NoDup (map fst o) ->
             json_parser_load_from_data (json_generator_to_data o) = Some o)
    by (intros o _; apply MiniJsonFacts.json_round_trip).
  assert (H2 : wsClient.checkIsConnected app = true) by reflexivity.
  split; [exact H1|]. split; [exact H2|].
  destruct (command_round_trip H1 "turn on the lights")
    as [text [Htype [Htext Hsend]]].
  exists text. split; [exact Htype|]. split; [exact Htext|].
  unfold exec. rewrite (Hsend app H2). reflexivity.
Defined.

End Runs.

(** * Further properties *)

(** ** Relations kept by a transformer *)

Section Relates.

Variable R : App -> App -> Prop.

Hypothesis R_refl : forall a, R a a.

Hypothesis R_trans : forall a b c, R a b -> R b c -> R a c.

Lemma relates_ret {A : Type} (x : A) : relates R (ret x).
Proof. intros a y a1 Hrun. inversion Hrun; subst. apply R_refl. Qed.

Lemma relates_fault {A : Type} : relates R (@fault A).
Proof. intros a y a1 Hrun. discriminate. Qed.

Lemma relates_deref {A : Type} (p : option A) : relates R (deref p).
Proof. destruct p; [apply relates_ret|apply relates_fault]. Qed.

Lemma relates_gets {A : Type} (f : App -> A) : relates R (gets f).
Proof. intros a y a1 Hrun. inversion Hrun; subst. apply R_refl. Qed.

Lemma relates_modify (f : App -> App) :
  (forall a, R a (f a)) -> relates R (modify f).
Proof. intros Hf a y a1 Hrun. inversion Hrun; subst. apply Hf. Qed.

Lemma relates_bind {A B : Type} (c : M A) (k : A -> M B) :
  relates R c -> (forall x, relates R (k x)) -> relates R (bind c k).
Proof.
  intros Hc Hk a y a2 Hrun. unfold bind in Hrun.
  destruct (c a) as [[x a1]|] eqn:Hca; [|discriminate].
  exact (R_trans _ _ _ (Hc a x a1 Hca) (Hk x a1 y a2 Hrun)).
Qed.

Lemma relates_if {A : Type} (b : bool) (c1 c2 : M A) :
  relates R c1 -> relates R c2 -> relates R (if b then c1 else c2).
Proof. now destruct b. Qed.

End Relates.

Lemma adds_refl (P : Effect -> bool) (a : App) : adds P a a.
Proof. exists []. now rewrite app_nil_r. Qed.

Lemma adds_trans (P : Effect -> bool) (a b c : App) :
  adds P a b -> adds P b c -> adds P a c.
Proof.
  intros [n1 [H1 P1]] [n2 [H2 P2]]. exists (n1 ++ n2). split.
  - now rewrite H2, H1, app_assoc.
  - now rewrite forallb_app, P1, P2.
Qed.

Lemma adds_emit (P : Effect -> bool) (e : Effect) :
  P e = true -> relates (adds P) (emit e).
Proof.
  intros He a y a1 Hrun. inversion Hrun; subst.
  exists [e]. simpl. now rewrite He.
Qed.

Lemma adds_wsClient (P : Effect -> bool) (f : wsClient_t -> wsClient_t) :
  relates (adds P) (modify (with_wsClient f)).
Proof.
  apply relates_modify. intros a. exists []. simpl. now rewrite app_nil_r.
Qed.

Lemma adds_stt (P : Effect -> bool) (f : STT_t -> STT_t) :
  relates (adds P) (modify (with_stt f)).
Proof.
  apply relates_modify. intros a. exists []. simpl. now rewrite app_nil_r.
Qed.

Ltac adds_step P :=
  first
    [ apply (relates_ret (adds P) (adds_refl P))
    | apply (relates_gets (adds P) (adds_refl P))
    | apply (relates_deref (adds P) (adds_refl P))
    | apply adds_wsClient
    | apply adds_stt
    | apply adds_emit; reflexivity
    | apply relates_if
    | apply (relates_bind (adds P) (adds_trans P)); [|intros ?] ].

(** ** More on the frame queue *)

Section FrameQueueMore.

Lemma calls_open (cs : list SendCall) (b : App) :
  STT.is_connection_open b = true ->
  stt_queue (m_stt b) = [] ->
  calls cs b =
  Some (tt,
        with_effects
          (fun l => l ++ map (frame_send (stt_wconn (m_stt b)))
                          (map queued_frame cs)) b).
Proof.
  revert b; induction cs as [|c cs IH]; intros b Hopen Hq.
  - destruct b as [cfg stt ws st eff]. simpl. run. now rewrite app_nil_r.
  - simpl. unfold bind at 1.
    assert (Hcall : call c b =
                    Some (tt, with_effects
                                (fun l => l ++ [frame_send (stt_wconn (m_stt b))
                                                  (queued_frame c)]) b)).
    { destruct c as [frame|]; simpl;
        unfold STT.send_frame, STT.send_done, bind, gets;
        rewrite Hopen, flush_queue_drains;
        destruct b as [cfg [q cn acc w ff u] ws st eff]; simpl in Hq; subst q;
        unfold drained, STT.dispatch_frame, frame_send; run;
        now rewrite app_nil_r. }
    rewrite Hcall. rewrite IH.
    + destruct b as [cfg stt ws st eff]. run. now rewrite <- app_assoc.
    + exact Hopen.
    + exact Hq.
Qed.

(** X1.  The socket sees the same traffic whether the capture path made its
    calls before the connection opened or after: the handshake, then one
    binary message per call in call order. *)
Theorem stt_wire_independent_of_connect
  (a : App) (cs : list SendCall) (conn : SoupWebsocketConnection) :
  STT.is_connection_open a = false ->
  stt_queue (m_stt a) = [] ->
  soup_state a conn = SOUP_WEBSOCKET_STATE_OPEN ->
  option_map effects
    (exec (calls cs ;; STT.on_connection (Connected conn)) a) =
  Some (effects a ++
        soup_websocket_connection_send_text (Some conn) STT.handshake ::
        map (frame_send (Some conn)) (map queued_frame cs)) /\
  option_map effects
    (exec (STT.on_connection (Connected conn) ;; calls cs) a) =
  Some (effects a ++
        soup_websocket_connection_send_text (Some conn) STT.handshake ::
        map (frame_send (Some conn)) (map queued_frame cs)).
Proof.
  intros Hclosed Hq Hstate. split.
  - unfold exec, bind. rewrite (calls_not_open cs a Hclosed).
    unfold STT.on_connection, STT.setConnection, STT.set_wconn,
      STT.set_acceptStream, bind, emit, modify.
    rewrite flush_queue_drains.
    destruct a as [cfg [q cn acc w ff u] ws st eff]. simpl in Hq; subst q.
    unfold enqueue, drained; run. now rewrite <- app_assoc.
  - unfold exec, bind at 1.
    unfold STT.on_connection, STT.setConnection, STT.set_wconn,
      STT.set_acceptStream, bind, emit, modify.
    rewrite flush_queue_drains.
    destruct a as [cfg [q cn acc w ff u] ws st eff]. simpl in Hq; subst q.
    simpl in Hstate. unfold drained; run.
    rewrite calls_open.
    + run. now rewrite app_nil_r, <- app_assoc.
    + unfold STT.is_connection_open; simpl. now rewrite Hstate.
    + reflexivity.
Qed.

(** X2.  Frames outlive a closed transport and a failed connection attempt:
    after [on_close], the calls of the capture path and a failed attempt
    nothing has been sent and the queue holds the frames in call order; the
    next connection that opens sends them all, oldest first. *)
Theorem stt_frames_survive_failed_attempt
  (a : App) (cs : list SendCall) (closed conn : SoupWebsocketConnection) :
  exists a1 a2,
    exec (STT.on_close closed ;; calls cs ;; STT.on_connection ConnectError) a =
    Some a1 /\
    effects a1 = effects a /\
    stt_queue (m_stt a1) = stt_queue (m_stt a) ++ map queued_frame cs /\
    exec (STT.on_connection (Connected conn)) a1 = Some a2 /\
    effects a2 =
      effects a ++
      soup_websocket_connection_send_text (Some conn) STT.handshake ::
      map (frame_send (Some conn))
        (stt_queue (m_stt a) ++ map queued_frame cs) /\
    stt_queue (m_stt a2) = [].
Proof.
  destruct a as [cfg [q cn acc w ff u] ws st eff].
  eexists. eexists.
  unfold exec at 1. unfold bind at 1. unfold STT.on_close at 1.
  unfold STT.set_acceptStream, modify, with_stt. cbn [m_stt m_config m_wsClient
    soup_state effects stt_queue stt_connected stt_acceptStream stt_wconn
    stt_firstFrame stt_url].
  unfold bind at 1. rewrite calls_not_open by reflexivity.
  cbn [STT.on_connection ret].
  split; [reflexivity|]. split; [reflexivity|]. split; [reflexivity|].
  unfold exec, STT.on_connection, STT.setConnection, STT.set_wconn,
    STT.set_acceptStream, bind, emit, modify.
  rewrite flush_queue_drains.
  split; [reflexivity|].
  unfold enqueue, drained; run.
  split; [|reflexivity]. now rewrite <- app_assoc.
Qed.

(** X3.  [connect] never faults, whatever the URL: it asks for one
    connection to the voice stream of the URL, with the [wss] alias exactly
    when the URL begins with [wss], and forgets the old connection, so that
    the calls of the capture path that follow are queued and nothing is
    sent before the connection opens. *)
Theorem stt_connect_then_queue (a : App) (cs : list SendCall) :
  exists a1,
    exec (STT.connect ;; calls cs) a = Some a1 /\
    effects a1 =
      effects a ++
      [soup_session_websocket_connect_async ClientSTT
         (String.prefix "wss" (stt_url (m_stt a)))
         (stt_url (m_stt a) ++ "/en-US/voice/stream")%string None] /\
    stt_queue (m_stt a1) = stt_queue (m_stt a) ++ map queued_frame cs /\
    stt_wconn (m_stt a1) = None /\
    STT.is_connection_open a1 = false.
Proof.
  destruct a as [cfg [q cn acc w ff u] ws st eff].
  destruct (memcmp_prefix "wss" eq_refl u) as [z [Hz Hz0]].
  cbn [String.length] in Hz.
  eexists. unfold exec, bind at 1. unfold STT.connect.
  unfold bind at 1. unfold gets at 1.
  cbn [m_stt stt_url]. unfold bind at 1. rewrite Hz. cbn [deref ret].
  unfold STT.set_wconn, STT.set_firstFrame; run.
  rewrite calls_not_open.
  - unfold enqueue; run. rewrite Hz0.
    repeat split; try reflexivity.
    unfold STT.is_connection_open; simpl. now rewrite andb_false_r.
  - unfold STT.is_connection_open; simpl. now rewrite andb_false_r.
Qed.

End FrameQueueMore.

(** ** More on the reply of the STT service *)

Section SttReplyMore.

Context {json : JsonGlib}.

Lemma checkIsConnected_effects (f : list Effect -> list Effect) (a : App) :
  wsClient.checkIsConnected (with_effects f a) = wsClient.checkIsConnected a.
Proof. reflexivity. Qed.

Lemma sendCommand_not_close (data : string) :
  relates (adds not_close) (wsClient.sendCommand data).
Proof.
  unfold wsClient.sendCommand, wsClient.sendJSON, wsClient.set_tInit.
  repeat adds_step not_close.
Qed.

(** X4.  The transport of the STT client is one-shot: whatever message
    arrives, text or not, valid or not, a callback that does not fault
    first reports the end of the recognition and ends by closing the
    connection the message came on, which it closes once. *)
Theorem stt_on_message_one_shot
  (conn : SoupWebsocketConnection) (type : SoupWebsocketDataType)
  (message : string) (a a1 : App) :
  exec (STT.on_message conn type message) a = Some a1 ->
  exists mid,
    effects a1 =
      effects a ++
      track_processing_event PROCESSING_END_STT ::
      mid ++ [soup_websocket_connection_close conn] /\
    forallb not_close mid = true.
Proof.
  unfold exec, STT.on_message. unfold bind at 1.
  cbn [emit modify]. unfold bind at 1.
  match goal with
  | |- match match ?c ?s with _ => _ end with _ => _ end = _ -> _ =>
      assert (Hbody : relates (adds not_close) c);
      [|destruct (c s) as [[x a2]|] eqn:Hrun; [|discriminate];
        destruct (Hbody _ _ _ Hrun) as [mid [Hmid Hclose]]]
  end.
  - destruct type; [|adds_step not_close].
    apply relates_if; [|repeat adds_step not_close].
    repeat (apply (relates_bind (adds not_close) (adds_trans not_close));
            [solve [repeat adds_step not_close]|intros ?]).
    apply relates_if; [|adds_step not_close].
    repeat (apply (relates_bind (adds not_close) (adds_trans not_close));
            [solve [repeat adds_step not_close]|intros ?]).
    repeat match goal with
           | |- context [if ?b then (_, _) else _] => destruct b
           end;
      first [apply sendCommand_not_close|repeat adds_step not_close].
  - intros Hend. inversion Hend; subst a1. clear Hend.
    exists mid. split; [|exact Hclose].
    cbn [effects with_effects]. rewrite Hmid. cbn [effects with_effects].
    now rewrite <- !app_assoc.
Qed.

(** X5.  A command recognised while the dialogue client is not connected is
    lost without a sound: the reply is tracked, the queue of the player
    cleared and the transport closed, and that is all. *)
Theorem stt_command_lost_when_disconnected
  (conn : SoupWebsocketConnection) (message result text command : string)
  (a : App) :
  CString.to_int (member_int message "status") = 0 ->
  member_string message "result" = Some result ->
  String.prefix "ok" result = true ->
  member_string message "text" = Some text ->
  strip_wake_phrase wake_phrases text = Some command ->
  wsClient.checkIsConnected a = false ->
  STT.on_message conn SOUP_WEBSOCKET_DATA_TEXT message a =
  Some (tt,
        with_effects
          (fun l => l ++ [track_processing_event PROCESSING_END_STT;
                          AudioPlayer_clean_queue;
                          soup_websocket_connection_close conn]) a).
Proof.
  intros Hstatus Hresult Hok Htext Hstrip Hconn.
  rewrite (on_message_recognized conn message result (Some text) a)
    by assumption.
  unfold recognized. cbv [bind emit modify ret deref]. rewrite Hstrip.
  unfold wsClient.sendCommand. cbv [bind gets].
  rewrite !checkIsConnected_effects, Hconn.
  destruct a as [cfg stt ws st eff]. run. now rewrite <- !app_assoc.
Qed.

End SttReplyMore.

(** ** More on the events of the dialogue service *)

Section DialogueMore.

Context {json : JsonGlib}.

Ltac unfold_on_message :=
  unfold wsClient.on_message, wsClient.handleConversationID,
    wsClient.handleSound, wsClient.handleAudio, wsClient.handleError,
    wsClient.handleAskSpecial, wsClient.handlePing, wsClient.sendJSON,
    wsClient.set_seq, wsClient.set_acceptStream,
    wsClient.set_conversationId.

Ltac unfold_callbacks :=
  unfold wsClient.on_close, wsClient.connect, wsClient.on_connection,
    wsClient.setConnection, wsClient.set_wconn, wsClient.set_acceptStream.

Ltac walk Hrefl Htrans leaf :=
  repeat first
    [ leaf
    | apply (relates_ret _ Hrefl)
    | apply (relates_gets _ Hrefl)
    | apply (relates_deref _ Hrefl)
    | apply relates_if
    | apply (relates_bind _ Htrans); [|intros ?] ].

Lemma dispatch_all_relates (R : App -> App -> Prop)
  (Hrefl : forall a, R a a)
  (Htrans : forall a b c, R a b -> R b c -> R a c)
  (cbs : list Callback) :
  (forall cb, relates R (dispatch cb)) -> relates R (dispatch_all cbs).
Proof.
  intros Hcb. induction cbs as [|cb cbs IH]; simpl.
  - apply (relates_ret _ Hrefl).
  - apply (relates_bind _ Htrans); [apply Hcb|intros ?; apply IH].
Qed.


(** X7.  A text event that is delivered twice in a row has the effect of
    one delivery: the second one leaves the client and the log as the first
    one left them. *)
Theorem dialogue_text_redelivery_idempotent
  (conn : SoupWebsocketConnection) (message : string) (a : App) :
  member_string message "type" = Some "text"%string ->
  (wsClient.on_message conn SOUP_WEBSOCKET_DATA_TEXT message ;;
   wsClient.on_message conn SOUP_WEBSOCKET_DATA_TEXT message) a =
  wsClient.on_message conn SOUP_WEBSOCKET_DATA_TEXT message a.
Proof.
  unfold member_string. intros Htype.
  unfold wsClient.on_message, wsClient.handleText. rewrite Htype.
  destruct a as [cfg stt [w acc cid tok u sq last ti] st eff].
  destruct acc; run; [|reflexivity].
  destruct (_ <=? last) eqn:Hstale; run.
  - now rewrite Hstale.
  - destruct ti; run; now rewrite Z.leb_refl.
Qed.

Lemma last_said_grows_refl (a : App) : last_said_grows a a.
Proof. unfold last_said_grows. lia. Qed.

Lemma last_said_grows_trans (a b c : App) :
  last_said_grows a b -> last_said_grows b c -> last_said_grows a c.
Proof. unfold last_said_grows. lia. Qed.

Lemma handleText_grows (id : Z) (reader : JsonReader) :
  relates last_said_grows (wsClient.handleText id reader).
Proof.
  intros a x a1.
  destruct a as [cfg stt [w acc cid tok u sq last ti] st eff].
  unfold wsClient.handleText, last_said_grows. run.
  destruct (id <=? last) eqn:Hstale.
  - intros Hrun; inversion Hrun; subst. simpl. lia.
  - apply Z.leb_gt in Hstale.
    destruct ti; run; intros Hrun; inversion Hrun; subst; simpl; lia.
Qed.

Ltac grows_leaf :=
  first
    [ apply handleText_grows
    | apply relates_modify; intros ?; unfold last_said_grows; simpl; lia ].

Lemma dispatch_grows (cb : Callback) : relates last_said_grows (dispatch cb).
Proof.
  destruct cb as [c data_type message|c|[|c]]; simpl.
  - unfold_on_message. destruct data_type;
      walk last_said_grows_refl last_said_grows_trans grows_leaf.
  - unfold_callbacks.
    walk last_said_grows_refl last_said_grows_trans grows_leaf.
  - apply (relates_ret _ last_said_grows_refl).
  - unfold_callbacks.
    walk last_said_grows_refl last_said_grows_trans grows_leaf.
Qed.

(** X8.  Through any sequence of callbacks of the dialogue client
    (messages of any kind, closed transports, connection attempts that fail
    or succeed) the id of the last text said never goes down: a reconnection
    does not reset it. *)
Theorem dialogue_last_said_never_decreases
  (cbs : list Callback) (a a1 : App) :
  exec (dispatch_all cbs) a = Some a1 ->
  ws_lastSaidTextID (m_wsClient a) <= ws_lastSaidTextID (m_wsClient a1).
Proof.
  unfold exec. destruct (dispatch_all cbs a) as [[x a2]|] eqn:Hrun;
    [|discriminate].
  intros Heq; inversion Heq; subst a2.
  exact (dispatch_all_relates last_said_grows last_said_grows_refl
           last_said_grows_trans cbs dispatch_grows a x a1 Hrun).
Qed.

Lemma same_request_refl (a : App) : same_request a a.
Proof. now unfold same_request. Qed.

Lemma same_request_trans (a b c : App) :
  same_request a b -> same_request b c -> same_request a c.
Proof. unfold same_request. intuition congruence. Qed.

Ltac request_leaf :=
  apply relates_modify; intros ?; unfold same_request; simpl; auto.

Lemma dispatch_same_request (cb : Callback) :
  relates same_request (dispatch cb).
Proof.
  destruct cb as [c data_type message|c|[|c]]; simpl.
  - unfold_on_message. destruct data_type;
      walk same_request_refl same_request_trans request_leaf.
  - unfold_callbacks. walk same_request_refl same_request_trans request_leaf.
  - apply (relates_ret _ same_request_refl).
  - unfold_callbacks. walk same_request_refl same_request_trans request_leaf.
Qed.

(** X9.  The connection request the dialogue client makes when its
    transport closes is made from its URL, its access token and the
    conversation id of the configuration, and no callback changes any of
    the three: after any sequence of callbacks the request is the one the
    client would have made before them.  The conversation id an [id]
    message assigns is kept in the client and is not part of the request. *)
Theorem dialogue_reconnect_request_fixed
  (cbs : list Callback) (conn : SoupWebsocketConnection) (a a1 : App) :
  exec (dispatch_all cbs) a = Some a1 ->
  exists a2,
    exec (wsClient.on_close conn) a1 = Some a2 /\
    effects a2 =
      effects a1 ++
      [soup_session_websocket_connect_async ClientGenie
         (String.prefix "wss" (ws_url (m_wsClient a)))
         (ws_url (m_wsClient a) ++
          match conversationId (m_config a) with
          | Some id => "?id=" ++ id
          | None => EmptyString
          end)%string
         (match ws_accessToken (m_wsClient a) with
          | Some token => Some ("Bearer " ++ token)%string
          | None => None
          end)].
Proof.
  unfold exec at 1. destruct (dispatch_all cbs a) as [[x a3]|] eqn:Hrun;
    [|discriminate].
  intros Heq; inversion Heq; subst a3.
  destruct (dispatch_all_relates same_request same_request_refl
              same_request_trans cbs dispatch_same_request a x a1 Hrun)
    as [Hcfg [Hurl Htoken]].
  pose proof (strncmp_prefix "wss" eq_refl (ws_url (m_wsClient a))) as Hwss.
  cbn [String.length] in Hwss.
  eexists. unfold exec, wsClient.on_close, wsClient.connect.
  cbv [bind gets emit modify with_effects].
  split; [reflexivity|]. cbn [effects].
  now rewrite Hcfg, Hurl, Htoken, Hwss.
Qed.

(** X10.  Right after a connection of the dialogue client is established,
    whatever accept-stream was before, a message whose type does not begin
    with [id] is dropped: only its id is recorded. *)
Theorem dialogue_connection_closes_gate
  (opened conn : SoupWebsocketConnection) (message type : string) (a : App) :
  member_string message "type" = Some type ->
  wsClient.type_is type "id" 2 = false ->
  (wsClient.on_connection (Connected opened) ;;
   wsClient.on_message conn SOUP_WEBSOCKET_DATA_TEXT message) a =
  (wsClient.on_connection (Connected opened) ;;
   wsClient.set_seq (member_int message "id")) a.
Proof.
  unfold member_string, member_int. intros Htype Hid.
  unfold wsClient.on_connection, wsClient.setConnection,
    wsClient.on_message.
  rewrite Htype.
  destruct a as [cfg stt [w acc cid tok u sq last ti] st eff].
  run. now rewrite Hid.
Qed.

Ltac calls_leaf :=
  first [ apply adds_wsClient | apply adds_emit; reflexivity ].

Lemma dispatch_dialogue_calls (cb : Callback) :
  relates (adds dialogue_call) (dispatch cb).
Proof.
  destruct cb as [c data_type message|c|[|c]]; simpl.
  - unfold_on_message.
    unfold wsClient.handleText, wsClient.set_lastSaidTextID,
      wsClient.set_tInit.
    destruct data_type;
      walk (adds_refl dialogue_call) (adds_trans dialogue_call) calls_leaf.
  - unfold_callbacks.
    walk (adds_refl dialogue_call) (adds_trans dialogue_call) calls_leaf.
  - apply (relates_ret _ (adds_refl dialogue_call)).
  - unfold_callbacks.
    walk (adds_refl dialogue_call) (adds_trans dialogue_call) calls_leaf.
Qed.

(** X11.  Whatever the service sends and however often the transport
    closes, the callbacks of the dialogue client only ever send text on the
    socket, ask for a connection of their own, limit the payload of a new
    connection, say a text, play the news intro, play a location and end
    the latency measurement.  They never close a socket, never send binary
    data and never clear or resume the queue of the player. *)
Theorem dialogue_callbacks_calls
  (cbs : list Callback) (a a1 : App) :
  exec (dispatch_all cbs) a = Some a1 ->
  exists new,
    effects a1 = effects a ++ new /\ forallb dialogue_call new = true.
Proof.
  unfold exec. destruct (dispatch_all cbs a) as [[x a2]|] eqn:Hrun;
    [|discriminate].
  intros Heq; inversion Heq; subst a2.
  exact (dispatch_all_relates (adds dialogue_call) (adds_refl dialogue_call)
           (adds_trans dialogue_call) cbs dispatch_dialogue_calls a x a1
           Hrun).
Qed.

End DialogueMore.

(** ** The ThingTalk message *)

Section Thingtalk.

Context {json : JsonGlib}.

Hypothesis json_glib_reads_back :
  forall o : JsonObject,
    NoDup (map fst o) ->
    json_parser_load_from_data (json_generator_to_data o) = Some o.

Lemma thingtalk_members (data : string) (seq : Z) :
  let text := json_generator_to_data (wsClient.thingtalk_message data seq) in
  member_string text "type" = Some "tt"%string /\
  member_string text "code" = Some data /\
  member_int text "id" = seq.
Proof.
  assert (Hnames : NoDup (map fst (wsClient.thingtalk_message data seq))).
  { simpl. repeat constructor; simpl; intuition discriminate. }
  unfold member_string, member_int.
  rewrite (json_glib_reads_back _ Hnames). repeat split.
Qed.

Lemma sendThingtalk_connected (data : string) (a : App) :
  wsClient.checkIsConnected a = true ->
  wsClient.sendThingtalk data a =
  (wsClient.set_seq (CString.to_int64 (ws_seq (m_wsClient a) + 1)) ;;
   emit (soup_websocket_connection_send_text (ws_wconn (m_wsClient a))
           (json_generator_to_data
              (wsClient.thingtalk_message data
                 (CString.to_int64 (ws_seq (m_wsClient a) + 1)))))) a.
Proof.
  intros Hconn. unfold wsClient.sendThingtalk, wsClient.sendJSON.
  unfold bind at 1. unfold gets at 1. rewrite Hconn.
  destruct a as [cfg stt [w acc cid tok u sq last ti] st eff].
  reflexivity.
Qed.

(** X12.  While the client is connected, [sendThingtalk] advances the
    sequence number by one (in 64 bits) and sends one text which, read back
    by the parser, has the type [tt], the program as its code and the new
    sequence number as its id.  While the client is not connected it does
    nothing: no text goes out and the sequence number stays. *)
Theorem thingtalk_round_trip (data : string) (a : App) :
  (wsClient.checkIsConnected a = true ->
   exists text a1,
     exec (wsClient.sendThingtalk data) a = Some a1 /\
     effects a1 =
       effects a ++
       [soup_websocket_connection_send_text (ws_wconn (m_wsClient a)) text] /\
     ws_seq (m_wsClient a1) = CString.to_int64 (ws_seq (m_wsClient a) + 1) /\
     member_string text "type" = Some "tt"%string /\
     member_string text "code" = Some data /\
     member_int text "id" = CString.to_int64 (ws_seq (m_wsClient a) + 1)) /\
  (wsClient.checkIsConnected a = false ->
   wsClient.sendThingtalk data a = Some (tt, a)).
Proof.
  split; intros Hconn.
  - destruct (thingtalk_members data
                (CString.to_int64 (ws_seq (m_wsClient a) + 1)))
      as [Htype [Hcode Hid]].
    exists (json_generator_to_data
              (wsClient.thingtalk_message data
                 (CString.to_int64 (ws_seq (m_wsClient a) + 1)))).
    unfold exec. rewrite (sendThingtalk_connected data a Hconn).
    destruct a as [cfg stt [w acc cid tok u sq last ti] st eff].
    eexists. run.
    split; [reflexivity|]. split; [reflexivity|]. split; [reflexivity|].
    split; [exact Htype|]. split; [exact Hcode|exact Hid].
  - unfold wsClient.sendThingtalk. unfold bind at 1. unfold gets at 1.
    now rewrite Hconn.
Qed.

Lemma same_link_refl (a : App) : same_link a a.
Proof. unfold same_link. repeat split. apply adds_refl. Qed.

Lemma same_link_trans (a b c : App) :
  same_link a b -> same_link b c -> same_link a c.
Proof.
  unfold same_link. intros [H1 [H2 [H3 H4]]] [K1 [K2 [K3 K4]]].
  repeat split; try congruence. exact (adds_trans _ _ _ _ H4 K4).
Qed.

Lemma same_link_wsClient (f : wsClient_t -> wsClient_t) :
  (forall w, ws_seq (f w) = ws_seq w /\ ws_wconn (f w) = ws_wconn w) ->
  relates same_link (modify (with_wsClient f)).
Proof.
  intros Hf. apply relates_modify. intros a. unfold same_link. simpl.
  destruct (Hf (m_wsClient a)) as [Hs Hw].
  repeat split; try assumption. exists []. now rewrite app_nil_r.
Qed.

Lemma same_link_emit (e : Effect) : relates same_link (emit e).
Proof.
  apply relates_modify. intros a. unfold same_link. simpl.
  repeat split. now exists [e].
Qed.

Ltac walk_link :=
  repeat first
    [ apply same_link_emit
    | apply same_link_wsClient; intros ?; split; reflexivity
    | apply (relates_ret _ same_link_refl)
    | apply (relates_gets _ same_link_refl)
    | apply (relates_deref _ same_link_refl)
    | apply relates_if
    | apply (relates_bind _ same_link_trans); [|intros ?] ].

(** What [on_message] does with a message that is not the id message once
    it has recorded the id. *)
Lemma on_message_after_seq
  (conn : SoupWebsocketConnection) (message type : string) (a : App) :
  member_string message "type" = Some type ->
  wsClient.type_is type "id" 2 = false ->
  exists rest : M unit,
    relates same_link rest /\
    wsClient.on_message conn SOUP_WEBSOCKET_DATA_TEXT message a =
    (wsClient.set_seq (member_int message "id") ;; rest) a.
Proof.
  unfold member_string, member_int. intros Htype Hid.
  unfold wsClient.on_message. rewrite Htype.
  cbv [deref]. unfold bind at 1. cbv [ret]. rewrite Hid.
  eexists. split; [|reflexivity].
  unfold wsClient.handleText, wsClient.handleSound, wsClient.handleAudio,
    wsClient.handleError, wsClient.handleAskSpecial, wsClient.handlePing,
    wsClient.sendJSON, wsClient.set_lastSaidTextID, wsClient.set_tInit.
  walk_link.
Qed.

(** X13.  The ids of the ThingTalk messages follow the ids the service
    uses: after a message that is not the id message, the next ThingTalk
    message the connected client sends carries the id of that message plus
    one. *)
Theorem thingtalk_id_follows_last_message
  (conn : SoupWebsocketConnection) (message type data : string)
  (a a2 : App) :
  member_string message "type" = Some type ->
  wsClient.type_is type "id" 2 = false ->
  wsClient.checkIsConnected a = true ->
  exec (wsClient.on_message conn SOUP_WEBSOCKET_DATA_TEXT message ;;
        wsClient.sendThingtalk data) a = Some a2 ->
  exists mid text,
    effects a2 =
      effects a ++ mid ++
      [soup_websocket_connection_send_text (ws_wconn (m_wsClient a)) text] /\
    member_string text "type" = Some "tt"%string /\
    member_string text "code" = Some data /\
    member_int text "id" = CString.to_int64 (member_int message "id" + 1) /\
    ws_seq (m_wsClient a2) = CString.to_int64 (member_int message "id" + 1).
Proof.
  intros Htype Hid Hconn.
  destruct (on_message_after_seq conn message type a Htype Hid)
    as [rest [Hrest Hmsg]].
  unfold exec. unfold bind at 1. rewrite Hmsg.
  unfold bind at 1. cbv [wsClient.set_seq modify].
  match goal with
  | |- context [rest ?s] => destruct (rest s) as [[x a1]|] eqn:Hrun
  end; [|discriminate].
  destruct (Hrest _ _ _ Hrun) as [Hseq [Hw [Hst [mid [Hmid _]]]]].
  cbn [with_wsClient m_wsClient m_config m_stt soup_state effects ws_seq
       ws_wconn] in Hseq, Hw, Hst, Hmid.
  assert (Hconn1 : wsClient.checkIsConnected a1 = true).
  { unfold wsClient.checkIsConnected in *. now rewrite Hw, Hst. }
  rewrite (sendThingtalk_connected data a1 Hconn1).
  cbv [bind wsClient.set_seq modify emit].
  intros Heq; inversion Heq; subst a2; clear Heq.
  destruct (thingtalk_members data
              (CString.to_int64 (member_int message "id" + 1)))
    as [Ktype [Kcode Kid]].
  exists mid.
  exists (json_generator_to_data
            (wsClient.thingtalk_message data
               (CString.to_int64 (member_int message "id" + 1)))).
  cbn [with_effects with_wsClient m_wsClient m_config m_stt soup_state
       effects ws_seq ws_wconn].
  rewrite Hseq, Hw, Hmid.
  split; [now rewrite <- app_assoc|].
  split; [exact Ktype|]. split; [exact Kcode|]. split; [exact Kid|].
  reflexivity.
Qed.

End Thingtalk.

(** ** The configuration pages *)

Module WebFacts.

Import WebServer.

Local Open Scope string_scope.

Lemma prefix_split (p s : string) :
  String.prefix p s = true <-> exists t, s = p ++ t.
Proof.
  revert s; induction p as [|c p IH]; intros s.
  - split; [intros _; exists s; reflexivity|now destruct s].
  - destruct s as [|d s]; simpl.
    + split; [discriminate|intros [t Ht]; discriminate].
    + destruct (ascii_dec c d) as [->|Hcd].
      * rewrite IH. split; intros [t Ht]; exists t; simpl in *; congruence.
      * split; [discriminate|intros [t Ht]; simpl in Ht; congruence].
Qed.

(** [strstr] finds nothing exactly when the needle occurs nowhere. *)
Lemma strstr_none (haystack needle : string) :
  strstr haystack needle = None <->
  (forall before after, haystack <> before ++ needle ++ after).
Proof.
  induction haystack as [|c rest IH]; cbn [strstr].
  - destruct (String.prefix needle "") eqn:Hp.
    + split; [discriminate|]. intros H. exfalso.
      apply prefix_split in Hp. destruct Hp as [t Ht].
      apply (H "" t). exact Ht.
    + split; [|reflexivity]. intros _ before after Heq.
      destruct before; simpl in Heq.
      * assert (String.prefix needle "" = true)
          by (apply prefix_split; exists after; exact Heq).
        congruence.
      * discriminate.
  - destruct (String.prefix needle (String c rest)) eqn:Hp.
    + split; [discriminate|]. intros H. exfalso.
      apply prefix_split in Hp. destruct Hp as [t Ht].
      apply (H "" t). exact Ht.
    + rewrite IH. split.
      * intros H before after Heq. destruct before as [|b before];
          simpl in Heq.
        -- assert (String.prefix needle (String c rest) = true)
             by (apply prefix_split; exists after; exact Heq).
           congruence.
        -- inversion Heq; subst. now apply (H before after).
      * intros H before after Heq.
        apply (H (String c before) after). simpl. now rewrite Heq.
Qed.

Lemma has_prefix (str prefix : string) :
  no_nul prefix = true ->
  g_str_has_prefix str prefix = String.prefix prefix str.
Proof. intros Hp. unfold g_str_has_prefix. now apply strncmp_prefix. Qed.

Lemma reads_send_html (status : Z) (title body : string) :
  reads (send_html status title body) = [].
Proof. reflexivity. Qed.

Section WithEnv.

Context {env : Env}.

(** X14.  [handle_asset] guards the files: it reads a file only for a GET
    request, only under the [webui] directory of the assets, and only for a
    path that does not begin with [.] or [/.] and has no [..] anywhere. *)
Theorem asset_reads_guarded
  (w : Web) (msg : SoupMessage) (path filename : string) :
  In filename (reads (handle_asset w msg path)) ->
  filename = g_build_filename (asset_dir (config w)) "webui" path /\
  CString.strcmp (method msg) "GET" = 0%Z /\
  String.prefix "." path = false /\
  String.prefix "/." path = false /\
  (forall before after, path <> before ++ ".." ++ after).
Proof.
  unfold handle_asset, check_method.
  rewrite !has_prefix by reflexivity.
  destruct (CString.strcmp (method msg) "GET" =? 0)%Z eqn:Hget.
  - destruct (negb (Z.land (method_flag GET) (method_flag GET) =? 0)%Z);
      [|intros []].
    destruct (String.prefix "." path) eqn:Hdot; [intros []|].
    destruct (String.prefix "/." path) eqn:Hslash; [intros []|].
    destruct (strstr path "..") eqn:Hup; [intros []|].
    cbn [orb]. intros Hin.
    assert (Hfile : filename =
                    g_build_filename (asset_dir (config w)) "webui" path).
    { simpl in Hin. destruct Hin as [Heq|Hin]; [now symmetry|].
      exfalso. revert Hin.
      destruct (files w _) as [contents|[]]; simpl; tauto. }
    repeat split; try assumption.
    + now apply Z.eqb_eq.
    + now apply strstr_none.
  - destruct (CString.strcmp (method msg) "POST" =? 0)%Z;
      [destruct (negb _)|]; intros [].
Qed.

End WithEnv.

Lemma statuses_app (l1 l2 : list Call) :
  statuses (l1 ++ l2) = (statuses l1 ++ statuses l2)%list.
Proof.
  induction l1 as [|[] l1 IH]; simpl; try rewrite IH; reflexivity.
Qed.

Lemma responses_app (l1 l2 : list Call) :
  responses (l1 ++ l2) = (responses l1 ++ responses l2)%list.
Proof.
  induction l1 as [|[] l1 IH]; simpl; try rewrite IH; reflexivity.
Qed.

(** The setters answer nothing. *)
Lemma setters_silent (made : list Call) :
  forallb is_setter made = true ->
  statuses made = [] /\ responses made = [].
Proof.
  induction made as [|[] made IH]; simpl; try discriminate; auto.
Qed.

Lemma setters_touch (made : list Call) :
  forallb is_setter made = true -> made <> [] ->
  existsb touches_config made = true.
Proof.
  destruct made as [|c made]; [congruence|]. simpl.
  intros H _. apply andb_true_iff in H. destruct H as [H _].
  unfold touches_config. now rewrite H.
Qed.

Lemma eqb_zero (z : Z) : negb (z =? 0)%Z = false -> z = 0%Z.
Proof. destruct (Z.eqb_spec z 0); [auto|discriminate]. Qed.

(** What one field of the form does to the setters made so far: they stay
    setters, [any_change] says whether there is one, and with none the
    configuration is the one the request found. *)
Lemma update_field_shape (c0 : WConfig) (n : nat)
  (field current : option string) (call : string -> Call)
  (set : string -> WConfig -> WConfig) (s : WConfig * list Call * bool) :
  (forall v, is_setter (call v) = true) ->
  forallb is_setter (snd (fst s)) = true /\
  snd s = negb (Nat.eqb (List.length (snd (fst s))) 0) /\
  (snd (fst s) = [] -> fst (fst s) = c0) /\
  (List.length (snd (fst s)) <= n)%nat ->
  let s' := update_field field current call set s in
  forallb is_setter (snd (fst s')) = true /\
  snd s' = negb (Nat.eqb (List.length (snd (fst s'))) 0) /\
  (snd (fst s') = [] -> fst (fst s') = c0) /\
  (List.length (snd (fst s')) <= S n)%nat.
Proof.
  intros Hcall. destruct s as [[c made] any]. simpl.
  intros (Hmade & Hany & Hc & Hn). unfold update_field.
  destruct field as [value|]; [|simpl; repeat split; auto].
  destruct (nonempty value && _); [|simpl; repeat split; auto].
  simpl. rewrite forallb_app, Hmade. simpl. rewrite Hcall.
  rewrite List.length_app. simpl. repeat split.
  - now replace (List.length made + 1)%nat with (S (List.length made)) by lia.
  - intros H. now destruct made.
  - lia.
Qed.

Section WithEnv.

Context {env : Env}.

Lemma handle_index_get_answer (w : Web) :
  statuses (handle_index_get w) = [200%Z] /\
  List.length (responses (handle_index_get w)) = 1%nat /\
  existsb touches_config (handle_index_get w) = false.
Proof. repeat split. Qed.

(** The calls of [handle_index_post]: setters, [Config::save] when there
    is a setter, then one answer. *)
Lemma handle_index_post_shape (w : Web) (msg : SoupMessage) :
  exists made answer status,
    snd (handle_index_post w msg) =
      (made ++ (if Nat.eqb (List.length made) 0 then [] else [Config_save])
       ++ answer)%list /\
    forallb is_setter made = true /\
    (List.length made <= 3)%nat /\
    statuses answer = [status] /\
    In status [200; 403; 406]%Z /\
    List.length (responses answer) = 1%nat /\
    existsb touches_config answer = false /\
    (made = [] -> fst (handle_index_post w msg) = config w) /\
    (made <> [] ->
     g_strcmp0 (content_type msg)
       (Some "application/x-www-form-urlencoded") = 0%Z /\
     g_strcmp0 (soup_form_decode (request_body msg) "_csrf")
       (Some (csrf_token w)) = 0%Z).
Proof.
  unfold handle_index_post.
  destruct (negb (g_strcmp0 (content_type msg) _ =? 0)%Z) eqn:Htype.
  { exists [], (send_html 406 title_error "<h1>Not Acceptable</h1>"), 406%Z.
    simpl. repeat split; auto; congruence. }
  cbv zeta.
  destruct (negb (g_strcmp0 (soup_form_decode _ "_csrf") _ =? 0)%Z)
    eqn:Htoken.
  { exists [], (send_html 403 title_error "<h1>Invalid CSRF token</h1>"),
      403%Z.
    simpl. repeat split; auto; congruence. }
  apply eqb_zero in Htype, Htoken.
  match goal with
  | |- context [update_field ?f3 _ ?c3 ?s3
                  (update_field ?f2 _ ?c2 ?s2
                     (update_field ?f1 ?cur1 ?c1 ?s1 ?st))] =>
      pose proof (update_field_shape (config w) 0 f1 cur1 c1 s1 st
                    (fun _ => eq_refl)) as H1;
      specialize (H1 (conj eq_refl (conj eq_refl
                        (conj (fun _ => eq_refl) (le_n 0)))));
      cbv zeta in H1;
      set (st1 := update_field f1 cur1 c1 s1 st) in *;
      pose proof (update_field_shape (config w) 1 f2
                    (genie_access_token (fst (fst st1))) c2 s2 st1
                    (fun _ => eq_refl) H1) as H2;
      cbv zeta in H2;
      set (st2 := update_field f2 _ c2 s2 st1) in *;
      pose proof (update_field_shape (config w) 2 f3
                    (conversation_id (fst (fst st2))) c3 s3 st2
                    (fun _ => eq_refl) H2) as H3;
      cbv zeta in H3;
      set (st3 := update_field f3 _ c3 s3 st2) in *
  end.
  clearbody st3. clear H1 H2. destruct st3 as [[c made] any].
  simpl in H3. destruct H3 as (Hmade & -> & Hc & Hn).
  exists made, (handle_index_get (mkWeb c (csrf_token w) (files w))),
    200%Z.
  pose proof (handle_index_get_answer (mkWeb c (csrf_token w) (files w)))
    as (Hs & Hr & Ht).
  simpl fst. simpl snd. repeat split; auto.
  - destruct (Nat.eqb (List.length made) 0); simpl;
      [reflexivity|now rewrite <- app_assoc].
  - simpl. auto.
Qed.

Lemma check_method_answer (msg : SoupMessage) (allowed_methods : Z) :
  let '(allowed, answer) := check_method msg allowed_methods in
  match allowed with
  | NONE => answer = handle_405
  | GET =>
      answer = [] /\ CString.strcmp (method msg) "GET" = 0%Z /\
      Z.land allowed_methods (method_flag GET) <> 0%Z
  | POST =>
      answer = [] /\ CString.strcmp (method msg) "POST" = 0%Z /\
      Z.land allowed_methods (method_flag POST) <> 0%Z
  end.
Proof.
  unfold check_method.
  destruct (Z.eqb_spec (CString.strcmp (method msg) "GET") 0).
  - destruct (Z.eqb_spec (Z.land allowed_methods (method_flag GET)) 0);
      simpl; auto.
  - destruct (Z.eqb_spec (CString.strcmp (method msg) "POST") 0);
      [|reflexivity].
    destruct (Z.eqb_spec (Z.land allowed_methods (method_flag POST)) 0);
      simpl; auto.
Qed.

(** What [handle_asset] answers when the method check leaves it to. *)
Lemma handle_asset_answer (w : Web) (msg : SoupMessage) (path : string) :
  existsb touches_config (handle_asset w msg path) = false /\
  (fst (check_method msg (method_flag GET)) <> POST ->
   exists status,
     statuses (handle_asset w msg path) = [status] /\
     In status [200; 403; 404; 405]%Z /\
     List.length (responses (handle_asset w msg path)) = 1%nat).
Proof.
  unfold handle_asset.
  pose proof (check_method_answer msg (method_flag GET)) as Hm.
  destruct (check_method msg (method_flag GET)) as [[| |] answer].
  - subst answer. split; [reflexivity|]. intros _. exists 405%Z.
    simpl. auto 10.
  - destruct (_ || _).
    + split; [reflexivity|]. intros _. exists 404%Z. simpl. auto 10.
    + destruct (files w _) as [contents|[]]; (split; [reflexivity|]);
        intros _;
        first [ exists 200%Z; simpl; now auto 10
              | exists 403%Z; simpl; now auto 10
              | exists 404%Z; simpl; now auto 10 ].
  - destruct Hm as (-> & _). split; [reflexivity|]. simpl. congruence.
Qed.

(** X15.  Every request gets one answer: whatever the handler, the method,
    the path and the body, the server sets one status, out of 200, 403,
    404, 405 and 406, and one response body, provided the flags of GET and
    POST share no bit. *)
Theorem request_answered_once
  (h : Handler) (w : Web) (msg : SoupMessage) (path : string) :
  Z.land (method_flag GET) (method_flag POST) = 0%Z ->
  exists status,
    statuses (snd (serve h w msg path)) = [status] /\
    In status [200; 403; 404; 405; 406]%Z /\
    List.length (responses (snd (serve h w msg path))) = 1%nat.
Proof.
  intros Hflags.
  assert (Hasset : exists status,
             statuses (handle_asset w msg path) = [status] /\
             In status [200; 403; 404; 405; 406]%Z /\
             List.length (responses (handle_asset w msg path)) = 1%nat).
  { destruct (handle_asset_answer w msg path) as [_ H].
    destruct H as (status & Hs & Hin & Hr).
    - pose proof (check_method_answer msg (method_flag GET)) as Hm.
      destruct (check_method msg (method_flag GET)) as [[| |] answer];
        simpl; try discriminate.
      destruct Hm as (_ & _ & Hm). congruence.
    - exists status. repeat split; auto. simpl in *. intuition. }
  destruct h; simpl; try exact Hasset.
  destruct (CString.strcmp path "/" =? 0)%Z;
    [|exists 404%Z; simpl; now auto 10].
  unfold handle_index.
  pose proof (check_method_answer msg
                (Z.lor (method_flag GET) (method_flag POST))) as Hm.
  destruct (check_method msg _) as [[| |] answer].
  - subst answer. exists 405%Z. simpl. auto 10.
  - exists 200%Z. simpl. auto 10.
  - destruct (handle_index_post_shape w msg)
      as (made & answer' & status & -> & Hmade & _ & Hs & Hin & Hr & _).
    destruct (setters_silent made Hmade) as [Hs0 Hr0].
    exists status.
    rewrite !statuses_app, !responses_app, Hs0, Hr0, Hs.
    destruct (Nat.eqb (List.length made) 0); simpl; repeat split; auto;
      simpl in Hin; intuition.
Qed.

(** X16.  The configuration is reached only through a valid form: when a
    request makes the server call a setter or [Config::save], or leaves
    another configuration than it found, it is a POST to [/] with the form
    content type and with a [_csrf] field equal to the token of the
    server. *)
Theorem config_touched_only_by_valid_post
  (h : Handler) (w : Web) (msg : SoupMessage) (path : string) :
  existsb touches_config (snd (serve h w msg path)) = true \/
  fst (serve h w msg path) <> config w ->
  h = RootHandler /\
  CString.strcmp path "/" = 0%Z /\
  CString.strcmp (method msg) "POST" = 0%Z /\
  g_strcmp0 (content_type msg)
    (Some "application/x-www-form-urlencoded") = 0%Z /\
  exists token,
    soup_form_decode (request_body msg) "_csrf" = Some token /\
    CString.strcmp token (csrf_token w) = 0%Z.
Proof.
  intros H.
  assert (Hasset : h <> RootHandler -> False).
  { intros Hh. destruct (handle_asset_answer w msg path) as [Hquiet _].
    destruct h; simpl in H; try congruence;
      rewrite Hquiet in H; destruct H; congruence. }
  destruct h; try (exfalso; apply Hasset; discriminate). clear Hasset.
  simpl in H. split; [reflexivity|].
  destruct (Z.eqb_spec (CString.strcmp path "/") 0) as [Hpath|_];
    [|simpl in H; destruct H; congruence].
  split; [exact Hpath|].
  unfold handle_index in H.
  pose proof (check_method_answer msg
                (Z.lor (method_flag GET) (method_flag POST))) as Hm.
  destruct (check_method msg _) as [[| |] answer].
  - subst answer. simpl in H. destruct H; congruence.
  - simpl in H. destruct H; congruence.
  - destruct Hm as (_ & Hpost & _). split; [exact Hpost|].
    destruct (handle_index_post_shape w msg)
      as (made & answer' & status & Hcalls & Hmade & _ & _ & _ & _
          & Hquiet & Hsame & Hvalid).
    assert (Hsome : made <> []).
    { intros ->. destruct H as [H|H]; [|now apply H, Hsame].
      rewrite Hcalls in H. simpl in H. congruence. }
    destruct (Hvalid Hsome) as [Htype Htoken]. split; [exact Htype|].
    destruct (soup_form_decode (request_body msg) "_csrf") as [token|];
      [|discriminate].
    exists token. split; [reflexivity|exact Htoken].
Qed.

(** X17.  A form that asks for nothing changes nothing: when the content
    type and the token are right and each of the three fields is missing,
    empty or equal to the value the configuration holds, no setter is
    called, nothing is saved, and the answer is the page of a GET. *)
Theorem post_asking_nothing (w : Web) (msg : SoupMessage) :
  g_strcmp0 (content_type msg)
    (Some "application/x-www-form-urlencoded") = 0%Z ->
  g_strcmp0 (soup_form_decode (request_body msg) "_csrf")
    (Some (csrf_token w)) = 0%Z ->
  asks_nothing (soup_form_decode (request_body msg) "url")
    (genie_url (config w)) = true ->
  asks_nothing (soup_form_decode (request_body msg) "access_token")
    (genie_access_token (config w)) = true ->
  asks_nothing (soup_form_decode (request_body msg) "conversation_id")
    (conversation_id (config w)) = true ->
  handle_index_post w msg = (config w, handle_index_get w).
Proof.
  intros Htype Htoken Hurl Haccess Hid.
  assert (Hskip : forall field current call set s,
             asks_nothing field current = true ->
             update_field field current call set s = s).
  { intros field current call set [[c made] any] Hfield.
    unfold update_field, asks_nothing in *.
    destruct field as [value|]; [|reflexivity].
    destruct (nonempty value); simpl in *; [|reflexivity].
    now rewrite Hfield. }
  unfold handle_index_post. rewrite Htype, Htoken. simpl negb. cbv iota.
  cbv zeta. cbn [fst snd]. rewrite (Hskip _ _ _ _ _ Hurl). cbn [fst snd].
  rewrite (Hskip _ _ _ _ _ Haccess). cbn [fst snd].
  rewrite (Hskip _ _ _ _ _ Hid). destruct w; reflexivity.
Qed.

(** X18.  [handle_index_post] saves after the setters and only then: its
    calls are at most three setters, then [Config::save] exactly when
    there is a setter, then an answer that reaches no configuration; with
    no setter the configuration is the one the request found. *)
Theorem post_saves_after_setters (w : Web) (msg : SoupMessage) :
  exists made answer,
    snd (handle_index_post w msg) =
      (made ++ (if Nat.eqb (List.length made) 0 then [] else [Config_save])
       ++ answer)%list /\
    forallb is_setter made = true /\
    (List.length made <= 3)%nat /\
    existsb touches_config answer = false /\
    (made = [] -> fst (handle_index_post w msg) = config w).
Proof.
  destruct (handle_index_post_shape w msg)
    as (made & answer & status & Hcalls & Hmade & Hn & _ & _ & _
        & Hquiet & Hsame & _).
  exists made, answer. auto.
Qed.

End WithEnv.

End WebFacts.

(** ** The further properties on the example device *)

Module MoreRuns.

Import Example Session.

#[local] Existing Instance MiniJson.json.

Local Open Scope string_scope.

Lemma stt_wire_independent_of_connect_witness :
  STT.is_connection_open app_connecting = false /\
  stt_queue (m_stt app_connecting) = [] /\
  soup_state app_connecting 2%nat = SOUP_WEBSOCKET_STATE_OPEN /\
  option_map effects
    (exec (calls [SendFrame frame1; SendDone] ;;
           STT.on_connection (Connected 2%nat)) app_connecting) =
  Some [soup_websocket_connection_send_text (Some 2%nat) STT.handshake;
        soup_websocket_connection_send_binary (Some 2%nat)
          (Some [1; -2; 3]) 6;
        soup_websocket_connection_send_binary (Some 2%nat) None 0] /\
  option_map effects
    (exec (STT.on_connection (Connected 2%nat) ;;
           calls [SendFrame frame1; SendDone]) app_connecting) =
  Some [soup_websocket_connection_send_text (Some 2%nat) STT.handshake;
        soup_websocket_connection_send_binary (Some 2%nat)
          (Some [1; -2; 3]) 6;
        soup_websocket_connection_send_binary (Some 2%nat) None 0].
Proof.
  assert (H1 : STT.is_connection_open app_connecting = false)
    by reflexivity.
  assert (H2 : stt_queue (m_stt app_connecting) = []) by reflexivity.
  assert (H3 : soup_state app_connecting 2%nat = SOUP_WEBSOCKET_STATE_OPEN)
    by reflexivity.
  split; [exact H1|]. split; [exact H2|]. split; [exact H3|].
  exact (stt_wire_independent_of_connect app_connecting
           [SendFrame frame1; SendDone] 2%nat H1 H2 H3).
Defined.

Lemma stt_on_message_one_shot_witness :
  exists a1,
    exec (STT.on_message 2%nat SOUP_WEBSOCKET_DATA_TEXT reply_lights) app =
    Some a1 /\
    exists mid,
      effects a1 =
        (effects app ++
         track_processing_event PROCESSING_END_STT ::
         mid ++ [soup_websocket_connection_close 2%nat])%list /\
      forallb not_close mid = true.
Proof.
  assert (H : exists a1,
             exec (STT.on_message 2%nat SOUP_WEBSOCKET_DATA_TEXT
                     reply_lights) app = Some a1)
    by (vm_compute; eexists; reflexivity).
  destruct H as [a1 H]. exists a1. split; [exact H|].
  exact (stt_on_message_one_shot 2%nat SOUP_WEBSOCKET_DATA_TEXT
           reply_lights app a1 H).
Defined.

Lemma stt_command_lost_when_disconnected_witness :
  CString.to_int (member_int reply_lights "status") = 0 /\
  member_string reply_lights "result" = Some "ok" /\
  String.prefix "ok" "ok" = true /\
  member_string reply_lights "text" = Some "computer, turn on the lights" /\
  strip_wake_phrase wake_phrases "computer, turn on the lights" =
  Some "turn on the lights" /\
  wsClient.checkIsConnected app_closing = false /\
  STT.on_message 2%nat SOUP_WEBSOCKET_DATA_TEXT reply_lights app_closing =
  Some (tt,
        with_effects
          (fun l => (l ++ [track_processing_event PROCESSING_END_STT;
                           AudioPlayer_clean_queue;
                           soup_websocket_connection_close 2%nat])%list)
          app_closing).
Proof.
  assert (H1 : CString.to_int (member_int reply_lights "status") = 0)
    by reflexivity.
  assert (H2 : member_string reply_lights "result" = Some "ok")
    by reflexivity.
  assert (H3 : String.prefix "ok" "ok" = true) by reflexivity.
  assert (H4 : member_string reply_lights "text" =
               Some "computer, turn on the lights") by reflexivity.
  assert (H5 : strip_wake_phrase wake_phrases
                 "computer, turn on the lights" =
               Some "turn on the lights") by reflexivity.
  assert (H6 : wsClient.checkIsConnected app_closing = false)
    by reflexivity.
  split; [exact H1|]. split; [exact H2|]. split; [exact H3|].
  split; [exact H4|]. split; [exact H5|]. split; [exact H6|].
  exact (stt_command_lost_when_disconnected 2%nat reply_lights "ok"
           "computer, turn on the lights" "turn on the lights" app_closing
           H1 H2 H3 H4 H5 H6).
Defined.


Lemma dialogue_text_redelivery_idempotent_witness :
  member_string event_text_7 "type" = Some "text" /\
  (wsClient.on_message 1%nat SOUP_WEBSOCKET_DATA_TEXT event_text_7 ;;
   wsClient.on_message 1%nat SOUP_WEBSOCKET_DATA_TEXT event_text_7) app =
  wsClient.on_message 1%nat SOUP_WEBSOCKET_DATA_TEXT event_text_7 app /\
  genie_calls 1%nat event_text_7 app = Some [AudioPlayer_say (Some "hello")].
Proof.
  assert (H : member_string event_text_7 "type" = Some "text")
    by reflexivity.
  split; [exact H|]. split; [|reflexivity].
  exact (dialogue_text_redelivery_idempotent 1%nat event_text_7 app H).
Defined.

Lemma dialogue_last_said_never_decreases_witness :
  exists a1,
    exec (dispatch_all callbacks) app = Some a1 /\
    ws_lastSaidTextID (m_wsClient app) <= ws_lastSaidTextID (m_wsClient a1).
Proof.
  assert (H : exists a1, exec (dispatch_all callbacks) app = Some a1)
    by (vm_compute; eexists; reflexivity).
  destruct H as [a1 H]. exists a1. split; [exact H|].
  exact (dialogue_last_said_never_decreases callbacks app a1 H).
Defined.

Lemma dialogue_reconnect_request_fixed_witness :
  exists a1,
    exec (dispatch_all callbacks) app = Some a1 /\
    exists a2,
      exec (wsClient.on_close 1%nat) a1 = Some a2 /\
      effects a2 =
        (effects a1 ++
         [soup_session_websocket_connect_async ClientGenie true
            "wss://genie.example/api/conversation"
            (Some "Bearer token")])%list.
Proof.
  assert (H : exists a1, exec (dispatch_all callbacks) app = Some a1)
    by (vm_compute; eexists; reflexivity).
  destruct H as [a1 H]. exists a1. split; [exact H|].
  exact (dialogue_reconnect_request_fixed callbacks 1%nat app a1 H).
Defined.

Lemma dialogue_connection_closes_gate_witness :
  member_string event_text_7 "type" = Some "text" /\
  wsClient.type_is "text" "id" 2 = false /\
  ws_acceptStream (m_wsClient app) = true /\
  (wsClient.on_connection (Connected 1%nat) ;;
   wsClient.on_message 1%nat SOUP_WEBSOCKET_DATA_TEXT event_text_7) app =
  (wsClient.on_connection (Connected 1%nat) ;; wsClient.set_seq 7) app.
Proof.
  assert (H1 : member_string event_text_7 "type" = Some "text")
    by reflexivity.
  assert (H2 : wsClient.type_is "text" "id" 2 = false) by reflexivity.
  split; [exact H1|]. split; [exact H2|]. split; [reflexivity|].
  exact (dialogue_connection_closes_gate 1%nat 1%nat event_text_7 "text"
           app H1 H2).
Defined.

Lemma dialogue_callbacks_calls_witness :
  exists a1,
    exec (dispatch_all callbacks) app = Some a1 /\
    exists new,
      effects a1 = (effects app ++ new)%list /\
      forallb dialogue_call new = true.
Proof.
  assert (H : exists a1, exec (dispatch_all callbacks) app = Some a1)
    by (vm_compute; eexists; reflexivity).
  destruct H as [a1 H]. exists a1. split; [exact H|].
  exact (dialogue_callbacks_calls callbacks app a1 H).
Defined.

Lemma thingtalk_round_trip_witness :
  (wsClient.checkIsConnected app = true /\
   exists text a1,
     exec (wsClient.sendThingtalk program) app = Some a1 /\
     effects a1 =
       (effects app ++
        [soup_websocket_connection_send_text (Some 1%nat) text])%list /\
     ws_seq (m_wsClient a1) = 6 /\
     member_string text "type" = Some "tt" /\
     member_string text "code" = Some program /\
     member_int text "id" = 6) /\
  (wsClient.checkIsConnected app_closing = false /\
   wsClient.sendThingtalk program app_closing = Some (tt, app_closing)).
Proof.
  assert (H1 : wsClient.checkIsConnected app = true) by reflexivity.
  assert (H2 : wsClient.checkIsConnected app_closing = false)
    by reflexivity.
  split; (split; [assumption|]).
  - exact (proj1 (thingtalk_round_trip
                    (fun o _ => MiniJsonFacts.json_round_trip o)
                    program app) H1).
  - exact (proj2 (thingtalk_round_trip
                    (fun o _ => MiniJsonFacts.json_round_trip o)
                    program app_closing) H2).
Defined.

Lemma thingtalk_id_follows_last_message_witness :
  member_string event_text_7 "type" = Some "text" /\
  wsClient.type_is "text" "id" 2 = false /\
  wsClient.checkIsConnected app = true /\
  exists a2,
    exec (wsClient.on_message 1%nat SOUP_WEBSOCKET_DATA_TEXT event_text_7 ;;
          wsClient.sendThingtalk program) app = Some a2 /\
    exists mid text,
      effects a2 =
        (effects app ++ mid ++
         [soup_websocket_connection_send_text (Some 1%nat) text])%list /\
      member_string text "type" = Some "tt" /\
      member_string text "code" = Some program /\
      member_int text "id" = 8 /\
      ws_seq (m_wsClient a2) = 8.
Proof.
  assert (H1 : member_string event_text_7 "type" = Some "text")
    by reflexivity.
  assert (H2 : wsClient.type_is "text" "id" 2 = false) by reflexivity.
  assert (H3 : wsClient.checkIsConnected app = true) by reflexivity.
  assert (H : exists a2,
             exec (wsClient.on_message 1%nat SOUP_WEBSOCKET_DATA_TEXT
                     event_text_7 ;;
                   wsClient.sendThingtalk program) app = Some a2)
    by (vm_compute; eexists; reflexivity).
  split; [exact H1|]. split; [exact H2|]. split; [exact H3|].
  destruct H as [a2 H]. exists a2. split; [exact H|].
  exact (thingtalk_id_follows_last_message
           (fun o _ => MiniJsonFacts.json_round_trip o) 1%nat event_text_7
           "text" program app a2 H1 H2 H3 H).
Defined.

End MoreRuns.

(** ** The configuration pages on the example server *)

Module WebRuns.

Import WebServer WebExample.

#[local] Existing Instance WebExample.env.

Local Open Scope string_scope.

Lemma asset_reads_guarded_witness :
  In "/opt/genie/assets/webui/css/style.css"
    (reads (handle_asset web get "/css/style.css")) /\
  "/opt/genie/assets/webui/css/style.css" =
  g_build_filename (asset_dir (config web)) "webui" "/css/style.css" /\
  CString.strcmp (method get) "GET" = 0%Z /\
  String.prefix "." "/css/style.css" = false /\
  String.prefix "/." "/css/style.css" = false /\
  (forall before after, "/css/style.css" <> before ++ ".." ++ after).
Proof.
  assert (H : In "/opt/genie/assets/webui/css/style.css"
                (reads (handle_asset web get "/css/style.css")))
    by (left; reflexivity).
  split; [exact H|].
  exact (WebFacts.asset_reads_guarded web get "/css/style.css"
           "/opt/genie/assets/webui/css/style.css" H).
Defined.

Lemma request_answered_once_witness :
  Z.land (method_flag GET) (method_flag POST) = 0%Z /\
  exists status,
    statuses (snd (serve RootHandler web post_token "/")) = [status] /\
    In status [200; 403; 404; 405; 406]%Z /\
    List.length (responses (snd (serve RootHandler web post_token "/"))) =
    1%nat.
Proof.
  assert (H : Z.land (method_flag GET) (method_flag POST) = 0%Z)
    by reflexivity.
  split; [exact H|].
  exact (WebFacts.request_answered_once RootHandler web post_token "/" H).
Defined.

Lemma config_touched_only_by_valid_post_witness :
  existsb touches_config (snd (serve RootHandler web post_token "/")) =
  true /\
  RootHandler = RootHandler /\
  CString.strcmp "/" "/" = 0%Z /\
  CString.strcmp (method post_token) "POST" = 0%Z /\
  g_strcmp0 (content_type post_token)
    (Some "application/x-www-form-urlencoded") = 0%Z /\
  exists token,
    soup_form_decode (request_body post_token) "_csrf" = Some token /\
    CString.strcmp token (csrf_token web) = 0%Z.
Proof.
  assert (H : existsb touches_config
                (snd (serve RootHandler web post_token "/")) = true)
    by reflexivity.
  split; [exact H|].
  exact (WebFacts.config_touched_only_by_valid_post RootHandler web
           post_token "/" (or_introl H)).
Defined.

Lemma post_asking_nothing_witness :
  g_strcmp0 (content_type post_same)
    (Some "application/x-www-form-urlencoded") = 0%Z /\
  g_strcmp0 (soup_form_decode (request_body post_same) "_csrf")
    (Some (csrf_token web)) = 0%Z /\
  asks_nothing (soup_form_decode (request_body post_same) "url")
    (genie_url (config web)) = true /\
  asks_nothing (soup_form_decode (request_body post_same) "access_token")
    (genie_access_token (config web)) = true /\
  asks_nothing (soup_form_decode (request_body post_same) "conversation_id")
    (conversation_id (config web)) = true /\
  handle_index_post web post_same = (config web, handle_index_get web).
Proof.
  assert (H1 : g_strcmp0 (content_type post_same)
                 (Some "application/x-www-form-urlencoded") = 0%Z)
    by reflexivity.
  assert (H2 : g_strcmp0 (soup_form_decode (request_body post_same) "_csrf")
                 (Some (csrf_token web)) = 0%Z) by reflexivity.
  assert (H3 : asks_nothing (soup_form_decode (request_body post_same) "url")
                 (genie_url (config web)) = true) by reflexivity.
  assert (H4 : asks_nothing
                 (soup_form_decode (request_body post_same) "access_token")
                 (genie_access_token (config web)) = true) by reflexivity.
  assert (H5 : asks_nothing
                 (soup_form_decode (request_body post_same)
                    "conversation_id")
                 (conversation_id (config web)) = true) by reflexivity.
  split; [exact H1|]. split; [exact H2|]. split; [exact H3|].
  split; [exact H4|]. split; [exact H5|].
  exact (WebFacts.post_asking_nothing web post_same H1 H2 H3 H4 H5).
Defined.

(** The three answers of the example server to a form: the token is set
    and saved, the forged form is refused and changes nothing. *)
Lemma post_token_saved :
  genie_access_token (fst (serve RootHandler web post_token "/")) =
  Some "abc" /\
  filter touches_config (snd (serve RootHandler web post_token "/")) =
  [Config_set_genie_access_token "abc"; Config_save] /\
  statuses (snd (serve RootHandler web post_token "/")) = [200%Z] /\
  fst (serve RootHandler web post_forged "/") = config web /\
  statuses (snd (serve RootHandler web post_forged "/")) = [403%Z] /\
  statuses (handle_asset web get "/js/secret.js") = [403%Z] /\
  statuses (handle_asset web get "/css/../../etc/passwd") = [404%Z] /\
  reads (handle_asset web get "/css/../../etc/passwd") = [].
Proof. repeat split; reflexivity. Qed.

End WebRuns.
